(** * pdfService: image-to-PDF, merge, split and compress

    A shallow embedding of [services/pdfService.ts] (imagesToPdf, mergePdfs,
    splitPdf, compressPdf) together with the JavaScript primitives the
    module relies on: [String.prototype.split], [includes], [trim],
    [parseInt], [Set] and [Array.prototype.sort].

    Conventions.
    - A JavaScript string is a sequence of UTF-16 code units; a code unit
      is a [Z].
    - The numbers that the page-range code computes with are the results
      of [parseInt], the loop counter and [totalPages]; all are integers
      and are embedded as [Z] ([NaN] is [None]).  A double holds every
      integer of magnitude up to 2^53 exactly, and the embedding is exact
      in that range; beyond it [parseInt] rounds and [i++] stops
      advancing, which is outside the embedding: the
      theorems that conclude, for every expression of some kind, that
      splitPdf returns or throws assume that the numbers of the
      expression are safe integers ([safeRange]).
    - The serialised bytes come from pdf-lib's [save], which gives a
      document without pages one blank page before it writes it; the
      libraries (pdf-lib, pdf.js, the canvas) are parameters of the
      sections. *)

From Stdlib Require Import String Ascii ZArith List Lia Bool QArith Qround.
From Stdlib Require Import Sorting.Sorted Sorting.Permutation DecimalString.
Import ListNotations.
Open Scope Z_scope.

(** ** JavaScript strings *)

Module JS.

Definition jsstring := list Z.

(** The code units [','] and ['-']. *)
Definition comma : Z := 44.
Definition hyphen : Z := 45.

(** The code units of an ASCII literal. *)
Definition utf16 (s : string) : jsstring :=
  map (fun a => Z.of_N (N_of_ascii a)) (list_ascii_of_string s).

(** WhiteSpace and LineTerminator of ECMA-262: TAB, LF, VT, FF, CR, SP,
    NBSP, U+1680, U+2000..U+200A, U+2028, U+2029, U+202F, U+205F, U+3000
    and U+FEFF. *)
Definition isWhiteSpace (c : Z) : bool :=
  ((9 <=? c) && (c <=? 13)) || (c =? 32) || (c =? 160) || (c =? 5760)
  || ((8192 <=? c) && (c <=? 8202)) || (c =? 8232) || (c =? 8233)
  || (c =? 8239) || (c =? 8287) || (c =? 12288) || (c =? 65279).

Fixpoint trimStart (s : jsstring) : jsstring :=
  match s with
  | [] => []
  | c :: s' => if isWhiteSpace c then trimStart s' else s
  end.

Definition trimEnd (s : jsstring) : jsstring := rev (trimStart (rev s)).

(** [s.trim()] *)
Definition trim (s : jsstring) : jsstring := trimEnd (trimStart s).

(** [s.includes(c)] for a one-unit search string. *)
Definition includes (c : Z) (s : jsstring) : bool := existsb (Z.eqb c) s.

(** [s.split(sep)] for a one-unit separator: never empty, [""] splits
    into [[""]]. *)
Fixpoint split (sep : Z) (s : jsstring) : list jsstring :=
  match s with
  | [] => [[]]
  | c :: s' =>
      if c =? sep then [] :: split sep s'
      else match split sep s' with
           | [] => [[c]]
           | p :: ps => (c :: p) :: ps
           end
  end.

(** The value of a code unit as a digit: 0-9, then a-z and A-Z for
    10..35. *)
Definition digitValue (c : Z) : option Z :=
  if (48 <=? c) && (c <=? 57) then Some (c - 48)
  else if (97 <=? c) && (c <=? 122) then Some (c - 97 + 10)
  else if (65 <=? c) && (c <=? 90) then Some (c - 65 + 10)
  else None.

(** The longest prefix of radix-[R] digits, as digit values. *)
Fixpoint radixDigits (R : Z) (s : jsstring) : list Z :=
  match s with
  | [] => []
  | c :: s' =>
      match digitValue c with
      | Some d => if d <? R then d :: radixDigits R s' else []
      | None => []
      end
  end.

Definition digitsValue (R : Z) (ds : list Z) : Z :=
  fold_left (fun acc d => acc * R + d) ds 0.

(** [parseInt(s)] with the radix left undefined (ECMA-262 19.2.5): skip
    leading white space, take a sign, strip a [0x]/[0X] prefix (radix 16,
    otherwise 10), read the longest digit prefix; no digit gives [NaN].
    [-0] is embedded as [0]: the callers only compare the result.  The
    result is the integer that the digits denote; the source returns the
    nearest double, which is that integer up to 2^53 and a rounded one
    beyond (["9007199254740993"] gives 9007199254740992). *)
Definition parseInt (s : jsstring) : option Z :=
  let inputString := trimStart s in
  let '(sign, unsigned) :=
    match inputString with
    | c :: rest =>
        if c =? 45 then (-1, rest)
        else if c =? 43 then (1, rest) else (1, inputString)
    | [] => (1, inputString)
    end in
  let '(R, numeral) :=
    match unsigned with
    | 48 :: x :: rest =>
        if (x =? 120) || (x =? 88) then (16, rest) else (10, unsigned)
    | _ => (10, unsigned)
    end in
  match radixDigits R numeral with
  | [] => None
  | ds => Some (sign * digitsValue R ds)
  end.

(** A [Set<number>] keeps its members in insertion order. *)
Definition Set_has (s : list Z) (x : Z) : bool := existsb (Z.eqb x) s.

Definition Set_add (s : list Z) (x : Z) : list Z :=
  if Set_has s x then s else s ++ [x].

(** [Array.prototype.sort(compareFn)]: a stable sort; [x] goes before [y]
    when [compareFn x y <= 0]. *)
Fixpoint sortInsert (compareFn : Z -> Z -> Z) (x : Z) (l : list Z) : list Z :=
  match l with
  | [] => [x]
  | y :: l' =>
      if compareFn x y <=? 0 then x :: l else y :: sortInsert compareFn x l'
  end.

Definition Array_sort (compareFn : Z -> Z -> Z) (l : list Z) : list Z :=
  fold_right (sortInsert compareFn) [] l.

End JS.

Import JS.

(** ** splitPdf: the page-range parsing (lines 96-115) *)

(** [for (let i = start; i <= end; i++)
       if (i >= 1 && i <= totalPages) pagesToKeep.add(i - 1);]
    [fuel] bounds the number of iterations; over the integers the loop
    ends after [end - start + 1] of them.  This is the loop of the source
    while the counter is a safe integer; from 2^53 on [i++] no longer
    advances there and the loop of the source does not end. *)
Fixpoint rangeLoop (fuel : nat) (i end_ totalPages : Z) (pagesToKeep : list Z)
  : list Z :=
  match fuel with
  | O => pagesToKeep
  | S fuel' =>
      if i <=? end_ then
        rangeLoop fuel' (i + 1) end_ totalPages
          (if (1 <=? i) && (i <=? totalPages)
           then Set_add pagesToKeep (i - 1) else pagesToKeep)
      else pagesToKeep
  end.

(** The loop runs [end - start + 1] times when [start <= end], and not at
    all otherwise. *)
Definition rangeFuel (start end_ : Z) : nat := Z.to_nat (end_ + 1 - start).

(** [part.split('-').map(s => parseInt(s.trim()))] *)
Definition rangeEnds (part : jsstring) : list (option Z) :=
  map (fun s => parseInt (trim s)) (split hyphen part).

(** The body of [parts.forEach(part => ...)].  [const [start, end] = ...]
    takes the first two elements; [!isNaN(start) && !isNaN(end)] holds
    when both are numbers (a missing element is [undefined], for which
    [isNaN] is true). *)
Definition forEachPart (totalPages : Z) (pagesToKeep : list Z) (part : jsstring)
  : list Z :=
  if includes hyphen part then
    match rangeEnds part with
    | Some start :: Some end_ :: _ =>
        rangeLoop (rangeFuel start end_) start end_ totalPages pagesToKeep
    | _ => pagesToKeep
    end
  else
    match parseInt (trim part) with
    | Some pageNum =>
        if (1 <=? pageNum) && (pageNum <=? totalPages)
        then Set_add pagesToKeep (pageNum - 1) else pagesToKeep
    | None => pagesToKeep
    end.

(** [pagesToKeep] after the [forEach]. *)
Definition pagesToKeep (rangeStr : jsstring) (totalPages : Z) : list Z :=
  fold_left (forEachPart totalPages) (split comma rangeStr) [].

(** [const indices = Array.from(pagesToKeep).sort((a, b) => a - b);] *)
Definition indices (rangeStr : jsstring) (totalPages : Z) : list Z :=
  Array_sort (fun a b => a - b) (pagesToKeep rangeStr totalPages).

(** What [pagesToKeep] satisfies all along: no member twice, every member
    a zero-based index of the document. *)
Definition wellFormed (totalPages : Z) (s : list Z) : Prop :=
  NoDup s /\ Forall (fun i => 0 <= i < totalPages) s.

(** Page [n] (counted from 1) is selected by the term [part] of a range
    expression over a document of [totalPages] pages. *)
Definition selects (totalPages : Z) (part : jsstring) (n : Z) : Prop :=
  1 <= n <= totalPages
  /\ if includes hyphen part
     then exists start end_ rest,
         rangeEnds part = Some start :: Some end_ :: rest
         /\ start <= n <= end_
     else parseInt (trim part) = Some n.

(** [Number.MAX_SAFE_INTEGER]: up to it a double holds every integer, so
    that [parseInt] returns the integer it read and [i++] adds one. *)
Definition MAX_SAFE_INTEGER : Z := 2 ^ 53 - 1.

(** [Number.isSafeInteger], taken as true of [NaN], which starts no
    loop. *)
Definition isSafeInteger (n : option Z) : bool :=
  match n with
  | Some n => (- MAX_SAFE_INTEGER <=? n) && (n <=? MAX_SAFE_INTEGER)
  | None => true
  end.

(** The numbers that a term computes with are safe integers: [start] and
    [end] of a range, or the page number. *)
Definition safePart (part : jsstring) : bool :=
  if includes hyphen part
  then forallb isSafeInteger (firstn 2 (rangeEnds part))
  else isSafeInteger (parseInt (trim part)).

(** Every term of the expression is safe: the embedding computes what the
    source computes, and every loop of the source ends. *)
Definition safeRange (rangeStr : jsstring) : Prop :=
  forallb safePart (split comma rangeStr) = true.

(** ** Outcomes and files *)

(** What an [async] function of the module settles with: the value it
    returns, or what it throws. *)
Inductive exn : Type :=
| Error (message : string)   (* [throw new Error(message)] of this module *)
| LibraryError.              (* a rejection inside pdf-lib, pdf.js or the DOM *)

Inductive outcome (A : Type) : Type :=
| Returned (a : A)
| Thrown (e : exn).
Arguments Returned {A} a.
Arguments Thrown {A} e.

Definition obind {A B} (m : outcome A) (k : A -> outcome B) : outcome B :=
  match m with
  | Returned a => k a
  | Thrown e => Thrown e
  end.

(** [await] of a library call that may reject. *)
Definition await {A} (r : option A) : outcome A :=
  match r with
  | Some a => Returned a
  | None => Thrown LibraryError
  end.

Declare Scope outcome_scope.
Delimit Scope outcome_scope with outcome.
Notation "x <- m ;; k" := (obind m (fun x => k))
  (at level 61, m at next level, right associativity) : outcome_scope.

(** The part of a DOM [File] that the module reads. *)
Record File (Bytes : Type) : Type := mkFile {
  type : string;
  arrayBuffer : Bytes
}.
Arguments mkFile {Bytes} type arrayBuffer.
Arguments type {Bytes} _.
Arguments arrayBuffer {Bytes} _.

(** ** pdf-lib *)

(** pdf-lib over documents whose pages are [Page]s; a document is the
    sequence of its pages, [PDFDocument.create()] is the empty one.
    [load] is [None] when pdf-lib rejects the bytes. *)
Class PdfLib (Bytes Page : Type) : Type := {
  load : Bytes -> option (list Page);
  (** the bytes that pdf-lib writes for a document of exactly these
      pages *)
  serializeToBuffer : list Page -> Bytes;
  (** the page that [addPage()] without a size appends: blank, of
      pdf-lib's default size (A4) *)
  defaultPage : Page
}.

Section PdfLibOps.
Context {Page : Type}.

Definition create : list Page := [].

Definition getPageCount (pdf : list Page) : Z := Z.of_nat (length pdf).

(** [range(0, getPageCount())] *)
Definition getPageIndices (pdf : list Page) : list Z :=
  map Z.of_nat (seq 0 (length pdf)).

Definition pageAt (pdf : list Page) (i : Z) : option Page :=
  if i <? 0 then None else nth_error pdf (Z.to_nat i).

(** [dst.copyPages(src, indices)]: a copy of [src]'s page at each index,
    in the order of [indices]; it throws on an index [src] does not
    have. *)
Fixpoint copyPages (srcPdf : list Page) (indices : list Z)
  : option (list Page) :=
  match indices with
  | [] => Some []
  | i :: rest =>
      match pageAt srcPdf i, copyPages srcPdf rest with
      | Some p, Some ps => Some (p :: ps)
      | _, _ => None
      end
  end.

Definition addPage (pdf : list Page) (page : Page) : list Page :=
  pdf ++ [page].
End PdfLibOps.

(** [pdfDoc.save()] with its default options, [addDefaultPage] among
    them: [if (addDefaultPage && this.getPageCount() === 0)
    this.addPage();] before the document is written.  A document without
    pages is saved with one blank page. *)
Definition save {Bytes Page} `{PdfLib Bytes Page} (pdf : list Page) : Bytes :=
  serializeToBuffer
    (if getPageCount pdf =? 0 then addPage pdf defaultPage else pdf).

(** The pages of the document that a call returned, as pdf-lib reads
    them. *)
Definition pagesOf {Bytes Page} `{PdfLib Bytes Page} (result : outcome Bytes)
  : option (list Page) :=
  match result with
  | Returned bytes => load bytes
  | Thrown _ => None
  end.

(** ** mergePdfs and splitPdf *)

Section MergeSplit.
Context {Bytes Page : Type} `{PdfLib Bytes Page}.
Local Open Scope outcome_scope.

(** The [for (const file of files)] loop of mergePdfs. *)
Fixpoint mergeLoop (files : list (File Bytes)) (mergedPdf : list Page)
  : outcome (list Page) :=
  match files with
  | [] => Returned mergedPdf
  | file :: rest =>
      let fileBytes := arrayBuffer file in
      pdf <- await (load fileBytes) ;;
      copiedPages <- await (copyPages pdf (getPageIndices pdf)) ;;
      mergeLoop rest (fold_left addPage copiedPages mergedPdf)
  end.

Definition mergePdfs (files : list (File Bytes)) : outcome Bytes :=
  let mergedPdf := create in
  mergedPdf <- mergeLoop files mergedPdf ;;
  Returned (save mergedPdf).

Definition splitPdf (file : File Bytes) (rangeStr : jsstring)
  : outcome Bytes :=
  let fileBytes := arrayBuffer file in
  srcPdf <- await (load fileBytes) ;;
  let newPdf := create in
  let totalPages := getPageCount srcPdf in
  let indices := indices rangeStr totalPages in
  if Z.of_nat (length indices) =? 0 then Thrown (Error "Invalid page range")
  else
    copiedPages <- await (copyPages srcPdf indices) ;;
    Returned (save (fold_left addPage copiedPages newPdf)).
End MergeSplit.

(** ** Pages that the module builds itself *)

(** A page made by [addPage([width, height])] with the images drawn on it;
    [Num] is the type of its coordinates. *)
Record Drawing (Num Image : Type) : Type := mkDrawing {
  image : Image;
  x : Num;
  y : Num;
  width : Num;
  height : Num
}.
Arguments mkDrawing {Num Image} image x y width height.
Arguments image {Num Image} _.
Arguments x {Num Image} _.
Arguments y {Num Image} _.
Arguments width {Num Image} _.
Arguments height {Num Image} _.

Record NewPage (Num Image : Type) : Type := mkPage {
  mediaBox : Num * Num;
  drawn : list (Drawing Num Image)
}.
Arguments mkPage {Num Image} mediaBox drawn.
Arguments mediaBox {Num Image} _.
Arguments drawn {Num Image} _.

(** [page.drawImage(image, options)] *)
Definition drawImage {Num Image} (page : NewPage Num Image)
  (d : Drawing Num Image) : NewPage Num Image :=
  mkPage (mediaBox page) (drawn page ++ [d]).

(** [embedJpg] and [embedPng] of pdf-lib ([None] when the bytes do not
    decode) and the pixel size of an embedded image. *)
Class ImageEmbedder (Bytes Image : Type) : Type := {
  embedJpg : Bytes -> option Image;
  embedPng : Bytes -> option Image;
  imageWidth : Image -> Z;
  imageHeight : Image -> Z
}.

(** [pdfImage.scale(factor)] *)
Definition scale {Bytes Image} `{ImageEmbedder Bytes Image}
  (pdfImage : Image) (factor : Z) : Z * Z :=
  (imageWidth pdfImage * factor, imageHeight pdfImage * factor).

(** ** imagesToPdf *)

Section ImagesToPdf.
Context {Bytes Image : Type}.
Context `{ImageEmbedder Bytes Image} `{PdfLib Bytes (NewPage Z Image)}.
Local Open Scope outcome_scope.

(** The embedding method that [image.type] selects; [None] is the
    [continue] branch. *)
Definition embedByType (image : File Bytes) : option (option Image) :=
  let imageBytes := arrayBuffer image in
  if String.eqb (type image) "image/jpeg" || String.eqb (type image) "image/jpg"
  then Some (embedJpg imageBytes)
  else if String.eqb (type image) "image/png"
  then Some (embedPng imageBytes)
  else None.

Fixpoint imagesLoop (images : list (File Bytes))
  (pdfDoc : list (NewPage Z Image)) : outcome (list (NewPage Z Image)) :=
  match images with
  | [] => Returned pdfDoc
  | image :: rest =>
      match embedByType image with
      | None => imagesLoop rest pdfDoc
      | Some embedding =>
          pdfImage <- await embedding ;;
          let '(width, height) := scale pdfImage 1 in
          let page := mkPage (width, height) [] in
          let page := drawImage page (mkDrawing pdfImage 0 0 width height) in
          imagesLoop rest (addPage pdfDoc page)
      end
  end.

Definition imagesToPdf (images : list (File Bytes)) : outcome Bytes :=
  let pdfDoc := create in
  pdfDoc <- imagesLoop images pdfDoc ;;
  Returned (save pdfDoc).
End ImagesToPdf.

(** The MIME types that get a page. *)
Definition acceptedType {Bytes} (image : File Bytes) : bool :=
  existsb (String.eqb (type image))
    ["image/jpeg"%string; "image/jpg"%string; "image/png"%string].

(** The page that imagesToPdf makes for an embedded image: as large as the
    image, with the image drawn over all of it. *)
Definition imagePage {Bytes Image} `{ImageEmbedder Bytes Image}
  (pdfImage : Image) : NewPage Z Image :=
  mkPage (imageWidth pdfImage, imageHeight pdfImage)
    [mkDrawing pdfImage 0 0 (imageWidth pdfImage) (imageHeight pdfImage)].

(** ** compressPdf *)

(** pdf.js: a loaded document is the sequence of its pages, [numPages] its
    length and [getPage(i)] its [i]-th page, counted from 1.  The numbers
    of this part (scale, viewport and page sizes, quality) are only passed
    along and are embedded as [Q]. *)
Class PdfJs (Bytes SrcPage Raster : Type) : Type := {
  getDocument : Bytes -> option (list SrcPage);
  (** [page.getViewport({ scale })]: its width and height *)
  getViewport : SrcPage -> Q -> Q * Q;
  (** the pixels on a canvas of the given size once
      [page.render({ canvasContext, viewport }).promise] resolves *)
  render : SrcPage -> Q * Q -> Q * Q -> option Raster
}.

(** The DOM: whether [canvas.getContext('2d')] gives a context, and the
    bytes behind [canvas.toDataURL(type, quality)]. *)
Class Dom (Bytes Raster : Type) : Type := {
  getContext2d : bool;
  toDataURL : Raster -> string -> Q -> Bytes
}.

(** The calls that compressPdf makes on its collaborators, as they
    happen. *)
Inductive event : Type :=
| onProgress_call (current total : Z)
| getPage_call (pageNumber : Z)
| getViewport_call (pageNumber : Z) (scale : Q)
| canvas_resize (width height : Q)
| render_call (pageNumber : Z) (viewport : Q * Q)
| toDataURL_call (type : string) (quality : Q)
| embedJpg_call
| addPage_call (width height : Q)
| drawImage_call (x y width height : Q)
| cleanup_call (pageNumber : Z).

Section CompressPdf.
Context {Bytes SrcPage Raster Image : Type}.
Context `{PdfJs Bytes SrcPage Raster} `{Dom Bytes Raster}.
Context `{ImageEmbedder Bytes Image} `{PdfLib Bytes (NewPage Q Image)}.

(** What the function changes while it runs. *)
Record world : Type := mkWorld {
  log : list event;
  canvas : Q * Q;
  newPdfDoc : list (NewPage Q Image)
}.

Definition M (A : Type) : Type := world -> outcome A * world.

Definition ret {A} (a : A) : M A := fun w => (Returned a, w).

Definition throw {A} (e : exn) : M A := fun w => (Thrown e, w).

Definition bind {A B} (m : M A) (k : A -> M B) : M B :=
  fun w =>
    match m w with
    | (Returned a, w') => k a w'
    | (Thrown e, w') => (Thrown e, w')
    end.

Definition emit (e : event) : M unit :=
  fun w => (Returned tt, mkWorld (log w ++ [e]) (canvas w) (newPdfDoc w)).

Definition awaitM {A} (r : option A) : M A :=
  fun w => (await r, w).

Local Notation "x <- m ;; k" := (bind m (fun x => k))
  (at level 61, m at next level, right associativity).
Local Notation "m ;;; k" := (bind m (fun _ => k))
  (at level 61, right associativity).

Definition getPageM (pdf : list SrcPage) (i : Z) : M SrcPage :=
  emit (getPage_call i) ;;;
  awaitM (if i <? 1 then None else nth_error pdf (Z.to_nat (i - 1))).

Definition getViewportM (i : Z) (page : SrcPage) (scale : Q) : M (Q * Q) :=
  emit (getViewport_call i scale) ;;;
  ret (getViewport page scale).

(** [canvas.width = w; canvas.height = h;] *)
Definition resizeCanvas (w h : Q) : M unit :=
  emit (canvas_resize w h) ;;;
  fun st => (Returned tt, mkWorld (log st) (w, h) (newPdfDoc st)).

Definition renderM (i : Z) (page : SrcPage) (viewport : Q * Q) : M Raster :=
  emit (render_call i viewport) ;;;
  fun st => (await (render page viewport (canvas st)), st).

(** [canvas.toDataURL(type, quality)], then [fetch] of the data URL. *)
Definition toDataURLM (pixels : Raster) (type : string) (quality : Q)
  : M Bytes :=
  emit (toDataURL_call type quality) ;;;
  ret (toDataURL pixels type quality).

Definition embedJpgM (imageBytes : Bytes) : M Image :=
  emit embedJpg_call ;;;
  awaitM (embedJpg imageBytes).

(** [const newPage = newPdfDoc.addPage([w, h]);
    newPage.drawImage(image, { x, y, width, height });]
    [newPage] is the last page of [newPdfDoc]. *)
Definition addPageM (w h : Q) : M unit :=
  emit (addPage_call w h) ;;;
  fun st => (Returned tt,
             mkWorld (log st) (canvas st)
               (addPage (newPdfDoc st) (mkPage (w, h) []))).

Definition drawImageM (d : Drawing Q Image) : M unit :=
  emit (drawImage_call (x d) (y d) (width d) (height d)) ;;;
  fun st => (Returned tt,
             mkWorld (log st) (canvas st)
               (match rev (newPdfDoc st) with
                | newPage :: before => rev before ++ [drawImage newPage d]
                | [] => []
                end)).

(** One turn of the [for] loop, for page [i]. *)
Definition compressPage (pdf : list SrcPage) (quality : Q)
  (onProgress : bool) (i numPages : Z) : M unit :=
  (if onProgress then emit (onProgress_call i numPages) else ret tt) ;;;
  page <- getPageM pdf i ;;
  viewport <- getViewportM i page (3 # 2) ;;
  resizeCanvas (fst viewport) (snd viewport) ;;;
  pixels <- renderM i page viewport ;;
  imageBytes <- toDataURLM pixels "image/jpeg" quality ;;
  embeddedImage <- embedJpgM imageBytes ;;
  addPageM (fst viewport) (snd viewport) ;;;
  drawImageM (mkDrawing embeddedImage 0%Q 0%Q (fst viewport) (snd viewport)) ;;;
  emit (cleanup_call i).

(** [for (let i = 1; i <= numPages; i++) { ... }] from [i] on; [fuel]
    bounds the number of turns. *)
Fixpoint compressLoop (fuel : nat) (pdf : list SrcPage) (quality : Q)
  (onProgress : bool) (i numPages : Z) : M unit :=
  match fuel with
  | O => ret tt
  | S fuel' =>
      if i <=? numPages then
        compressPage pdf quality onProgress i numPages ;;;
        compressLoop fuel' pdf quality onProgress (i + 1) numPages
      else ret tt
  end.

(** [onProgress] tells whether a callback was passed; its calls are in
    the log. *)
Definition compressPdf (file : File Bytes) (quality : Q) (onProgress : bool)
  : M Bytes :=
  let fileArrayBuffer := arrayBuffer file in
  pdf <- awaitM (getDocument fileArrayBuffer) ;;
  let numPages := Z.of_nat (List.length pdf) in
  (if getContext2d then ret tt
   else throw (Error "Could not create canvas context")) ;;;
  compressLoop (Z.to_nat numPages) pdf quality onProgress 1 numPages ;;;
  fun st => (Returned (save (newPdfDoc st)), st).

(** The world in which compressPdf starts: nothing logged, a fresh
    canvas (300 x 150 by default) and the empty [newPdfDoc]. *)
Definition initial : world := mkWorld [] (300 # 1, 150 # 1)%Q create.
End CompressPdf.

(** ** What compressPdf is expected to do *)

Section CompressPdfSpec.
Context {Bytes SrcPage Raster Image : Type}.
Context `{PdfJs Bytes SrcPage Raster} `{Dom Bytes Raster}.
Context `{ImageEmbedder Bytes Image} `{PdfLib Bytes (NewPage Q Image)}.

(** The viewport of a page at the scale that compressPdf asks for. *)
Definition viewportOf (page : SrcPage) : Q * Q := getViewport page (3 # 2).

(** [page] renders on a canvas of its viewport's size, and the JPEG of
    that canvas at [quality] embeds as [img]. *)
Definition rendersTo (quality : Q) (page : SrcPage) (img : Image) : Prop :=
  exists pixels,
    render page (viewportOf page) (viewportOf page) = Some pixels
    /\ embedJpg (toDataURL pixels "image/jpeg" quality) = Some img.

(** The page that one turn of the loop appends. *)
Definition compressedPage (page : SrcPage) (img : Image) : NewPage Q Image :=
  mkPage (viewportOf page)
    [mkDrawing img 0%Q 0%Q (fst (viewportOf page)) (snd (viewportOf page))].

(** Every page has the size of the raster drawn on it: the pixel size of
    the embedded JPEG. *)
Definition sizedToRaster (doc : list (NewPage Q Image)) : Prop :=
  Forall (fun page =>
            Forall (fun d =>
                      Qeq (fst (mediaBox page)) (inject_Z (imageWidth (image d)))
                      /\ Qeq (snd (mediaBox page))
                           (inject_Z (imageHeight (image d))))
              (drawn page)) doc.

(** The calls of one turn, in order. *)
Definition pageEvents (onProgress : bool) (quality : Q) (numPages i : Z)
  (page : SrcPage) : list event :=
  (if onProgress then [onProgress_call i numPages] else [])
  ++ [getPage_call i;
      getViewport_call i (3 # 2);
      canvas_resize (fst (viewportOf page)) (snd (viewportOf page));
      render_call i (viewportOf page);
      toDataURL_call "image/jpeg" quality;
      embedJpg_call;
      addPage_call (fst (viewportOf page)) (snd (viewportOf page));
      drawImage_call 0%Q 0%Q (fst (viewportOf page)) (snd (viewportOf page));
      cleanup_call i].

Fixpoint loopEvents (onProgress : bool) (quality : Q) (numPages i : Z)
  (pages : list SrcPage) : list event :=
  match pages with
  | [] => []
  | page :: rest =>
      pageEvents onProgress quality numPages i page
      ++ loopEvents onProgress quality numPages (i + 1) rest
  end.

(** The pages that the loop appends for [pages] embedded as [imgs]. *)
Definition compressedPages (pages : list SrcPage) (imgs : list Image)
  : list (NewPage Q Image) :=
  map (fun pi => compressedPage (fst pi) (snd pi)) (combine pages imgs).

End CompressPdfSpec.

(** [i, i + 1, ...], [n] numbers. *)
Fixpoint countFrom (i : Z) (n : nat) : list Z :=
  match n with
  | O => []
  | S n' => i :: countFrom (i + 1) n'
  end.

(** The scale of each [getViewport] call, the viewport of each [render]
    call and the arguments of each [toDataURL] call of a log. *)
Definition viewportScales (l : list event) : list (Z * Q) :=
  flat_map (fun e => match e with
                     | getViewport_call i s => [(i, s)]
                     | _ => []
                     end) l.

Definition renderedSizes (l : list event) : list (Q * Q) :=
  flat_map (fun e => match e with
                     | render_call _ viewport => [viewport]
                     | _ => []
                     end) l.

Definition encoderCalls (l : list event) : list (string * Q) :=
  flat_map (fun e => match e with
                     | toDataURL_call type quality => [(type, quality)]
                     | _ => []
                     end) l.

(** The progress reports of a log: [(current, total, done)] for each call
    of the callback, [done] counting the pages whose turn had ended
    ([page.cleanup()] reached) when the call was made. *)
Fixpoint reports (done : Z) (l : list event) : list (Z * Z * Z) :=
  match l with
  | [] => []
  | onProgress_call current total :: l' =>
      (current, total, done) :: reports done l'
  | cleanup_call _ :: l' => reports (done + 1) l'
  | _ :: l' => reports done l'
  end.

(** Each progress call is made after the page it names has been
    completed: [current] pages or more are done at the call. *)
Definition calledAfterPage (l : list event) : Prop :=
  Forall (fun r => fst (fst r) <= snd r) (reports 0 l).

(** An image of an accepted type whose bytes the embedder that its type
    selects does not decode. *)
Definition undecodable {Bytes Image} `{ImageEmbedder Bytes Image}
  (image : File Bytes) : Prop :=
  ((type image = "image/jpeg"%string \/ type image = "image/jpg"%string)
   /\ embedJpg (arrayBuffer image) = None)
  \/ (type image = "image/png"%string
      /\ embedPng (arrayBuffer image) = None).

(** The arguments of the calls of the progress callback, in order. *)
Definition progressCalls (l : list event) : list (Z * Z) :=
  flat_map (fun e => match e with
                     | onProgress_call current total => [(current, total)]
                     | _ => []
                     end) l.

(** The calls that open a turn: the progress report, when a callback was
    passed, and [getPage]. *)
Definition turnPrefix (onProgress : bool) (i numPages : Z) : list event :=
  (if onProgress then [onProgress_call i numPages] else []) ++ [getPage_call i].

(** ** downloadPdf *)

(** The part of the browser page that downloadPdf acts on.  Elements and
    object URLs are told apart by a number given at creation. *)
Module Download.

Record Blob (Bytes : Type) : Type := mkBlob {
  blobParts : Bytes;
  blobType : string
}.
Arguments mkBlob {Bytes} blobParts blobType.
Arguments blobParts {Bytes} _.
Arguments blobType {Bytes} _.

Record page (Bytes : Type) : Type := mkPage {
  (** the children of [document.body], first to last *)
  body : list nat;
  (** how many elements were created so far *)
  elements : nat;
  (** the live object URLs and the blobs behind them *)
  objectURLs : list (nat * Blob Bytes);
  (** how many object URLs were created so far *)
  urls : nat;
  (** the downloads started: the name given and what the link resolved to *)
  downloads : list (jsstring * option (Blob Bytes))
}.
Arguments mkPage {Bytes} body elements objectURLs urls downloads.
Arguments body {Bytes} _.
Arguments elements {Bytes} _.
Arguments objectURLs {Bytes} _.
Arguments urls {Bytes} _.
Arguments downloads {Bytes} _.

(** An [<a>] element with the attributes the function sets. *)
Record anchor : Type := mkAnchor {
  element : nat;
  href : option nat;
  download : jsstring
}.

Section Dom.
Context {Bytes : Type}.

(** [URL.createObjectURL(blob)] *)
Definition createObjectURL (blob : Blob Bytes) (p : page Bytes)
  : nat * page Bytes :=
  (urls p,
   mkPage (body p) (elements p) ((urls p, blob) :: objectURLs p)
     (S (urls p)) (downloads p)).

(** [document.createElement('a')] *)
Definition createElement (p : page Bytes) : anchor * page Bytes :=
  (mkAnchor (elements p) None [],
   mkPage (body p) (S (elements p)) (objectURLs p) (urls p) (downloads p)).

(** [document.body.appendChild(a)]: [a] becomes the last child; were it a
    child already, it would move. *)
Definition appendChild (a : anchor) (p : page Bytes) : page Bytes :=
  mkPage (remove Nat.eq_dec (element a) (body p) ++ [element a])
    (elements p) (objectURLs p) (urls p) (downloads p).

Definition resolve (url : nat) (p : page Bytes) : option (Blob Bytes) :=
  match find (fun entry => Nat.eqb (fst entry) url) (objectURLs p) with
  | Some entry => Some (snd entry)
  | None => None
  end.

(** [a.click()] on a link with a [download] attribute: the browser saves
    what [href] resolves to under that name. *)
Definition click (a : anchor) (p : page Bytes) : page Bytes :=
  mkPage (body p) (elements p) (objectURLs p) (urls p)
    (downloads p
     ++ [(download a,
          match href a with
          | Some url => resolve url p
          | None => None
          end)]).

(** [document.body.removeChild(a)]; it throws when [a] is not a child. *)
Definition removeChild (a : anchor) (p : page Bytes) : option (page Bytes) :=
  if existsb (Nat.eqb (element a)) (body p)
  then Some (mkPage (remove Nat.eq_dec (element a) (body p))
               (elements p) (objectURLs p) (urls p) (downloads p))
  else None.

(** [URL.revokeObjectURL(url)] *)
Definition revokeObjectURL (url : nat) (p : page Bytes) : page Bytes :=
  mkPage (body p) (elements p)
    (filter (fun entry => negb (Nat.eqb (fst entry) url)) (objectURLs p))
    (urls p) (downloads p).

(** downloadPdf settles and leaves the page in some state; it throws only
    where [removeChild] does. *)
Definition downloadPdf (data : Bytes) (filename : jsstring) (p : page Bytes)
  : outcome unit * page Bytes :=
  let blob := mkBlob data "application/pdf" in
  let '(url, p) := createObjectURL blob p in
  let '(a, p) := createElement p in
  let a := mkAnchor (element a) (Some url) (download a) in
  let a := mkAnchor (element a) (href a) filename in
  let p := appendChild a p in
  let p := click a p in
  match removeChild a p with
  | None => (Thrown LibraryError, p)
  | Some p => (Returned tt, revokeObjectURL url p)
  end.

(** A page as a browser keeps it: the children of the body and the live
    URLs were all created, and none occurs twice. *)
Definition consistent (p : page Bytes) : Prop :=
  Forall (fun e => (e < elements p)%nat) (body p)
  /\ Forall (fun entry => (fst entry < urls p)%nat) (objectURLs p).

End Dom.
End Download.

(** ** geminiService *)

Module Gemini.

(** The request of [ai.models.generateContent]: the model, the inline
    image (its MIME type and data) and the text of the prompt.  [Data] is
    what the caller passes as [imageBase64]; it is only handed on. *)
Record Request (Data : Type) : Type := mkRequest {
  model : string;
  mimeType : string;
  data : Data;
  prompt : string
}.
Arguments mkRequest {Data} model mimeType data prompt.
Arguments model {Data} _.
Arguments mimeType {Data} _.
Arguments data {Data} _.
Arguments prompt {Data} _.

(** What the module reads of a response; an absent property is [None]. *)
Record Part : Type := mkPart {
  (** [part.inlineData], and in it [data] *)
  inlineData : option (option jsstring)
}.

Record Candidate : Type := mkCandidate {
  (** [candidate.content], and in it [parts] *)
  content : option (option (list Part))
}.

Record Response : Type := mkResponse {
  text : option jsstring;
  candidates : option (list Candidate)
}.

(** The configured key ([process.env.API_KEY || '']) and the service;
    [generateContent] is [None] when the call rejects. *)
Class Service (Data : Type) : Type := {
  apiKey : jsstring;
  generateContent : Request Data -> option Response
}.

Definition ocrPrompt : string :=
  "Extract all text from this image. Keep the formatting as close as possible to the original. If there is a table, try to represent it in Markdown.".

Definition backgroundPrompt : string :=
  "Remove the background from this image. Return the main subject on a solid white background. Ensure high precision for edges.".

(** [try { ... } catch (error) { throw new Error(message); }] *)
Definition tryCatch {A} (body : outcome A) (message : string) : outcome A :=
  match body with
  | Returned a => Returned a
  | Thrown _ => Thrown (Error message)
  end.

(** [x || fallback] on a string that may be absent. *)
Definition orElse (x : option jsstring) (fallback : jsstring) : jsstring :=
  match x with
  | Some (c :: s) => c :: s
  | _ => fallback
  end.

Section Service.
Context {Data : Type} `{Service Data}.

(** Each function settles with a value or an error, and has sent the
    requests listed. *)
Definition performOCR (imageBase64 : Data)
  : outcome jsstring * list (Request Data) :=
  match apiKey with
  | [] =>
      (Thrown (Error "API Key is missing. Please check your configuration."),
       [])
  | _ =>
      let request :=
        mkRequest "gemini-2.5-flash" "image/jpeg" imageBase64 ocrPrompt in
      (tryCatch
         (obind (await (generateContent request)) (fun response =>
          Returned (orElse (text response)
                      (utf16 "No text could be extracted."))))
         "Failed to perform OCR. Please try again.",
       [request])
  end.

(** [for (const part of parts)
       if (part.inlineData && part.inlineData.data) return part.inlineData.data;] *)
Fixpoint firstInlineData (parts : list Part) : option jsstring :=
  match parts with
  | [] => None
  | part :: rest =>
      match inlineData part with
      | Some (Some (c :: s)) => Some (c :: s)
      | _ => firstInlineData rest
      end
  end.

(** [candidates && candidates[0]?.content?.parts] *)
Definition firstParts (response : Response) : option (list Part) :=
  match candidates response with
  | Some (candidate :: _) =>
      match content candidate with
      | Some (Some parts) => Some parts
      | _ => None
      end
  | _ => None
  end.

Definition removeImageBackground (imageBase64 : Data)
  : outcome jsstring * list (Request Data) :=
  match apiKey with
  | [] => (Thrown (Error "API Key is missing."), [])
  | _ =>
      let request :=
        mkRequest "gemini-2.5-flash-image" "image/jpeg" imageBase64
          backgroundPrompt in
      (tryCatch
         (obind (await (generateContent request)) (fun response =>
          match
            match firstParts response with
            | Some parts => firstInlineData parts
            | None => None
            end
          with
          | Some image => Returned image
          | None => Thrown (Error "No image generated.")
          end))
         "Failed to remove background.",
       [request])
  end.

End Service.
End Gemini.

(** ** App: the session and the screens that call the services *)

Module App.

(** [ProcessingStatus] of the types module. *)
Inductive ProcessingStatus : Type := idle | processing | success | error.

Record UserProfile : Type := mkUser {
  name : jsstring;
  email : jsstring;
  isLoggedIn : bool
}.

(** [{ name: '', email: '', isLoggedIn: false }] *)
Definition noUser : UserProfile := mkUser [] [] false.

(** [localStorage]: the stored keys with their values. *)
Definition Storage : Type := list (string * jsstring).

Definition removeItem (key : string) (s : Storage) : Storage :=
  filter (fun entry => negb (String.eqb (fst entry) key)) s.

Definition setItem (key : string) (value : jsstring) (s : Storage) : Storage :=
  (key, value) :: removeItem key s.

Definition getItem (key : string) (s : Storage) : option jsstring :=
  match find (fun entry => String.eqb (fst entry) key) s with
  | Some entry => Some (snd entry)
  | None => None
  end.

(** [JSON.stringify] and [JSON.parse] on user profiles; [parse] is [None]
    where [JSON.parse] throws. *)
Class Json : Type := {
  stringify : UserProfile -> jsstring;
  parse : jsstring -> option UserProfile
}.

(** What AppProvider holds of the session. *)
Record session : Type := mkSession {
  user : UserProfile;
  localStorage : Storage
}.

(** The code unit ['@']. *)
Definition at_sign : Z := 64.

Section Session.
Context `{Json}.

(** [login]: [name] is [email.split('@')[0]]. *)
Definition login (email : jsstring) (s : session) : session :=
  let newUser :=
    mkUser (match split at_sign email with
            | first :: _ => first
            | [] => []
            end) email true in
  mkSession newUser (setItem "user" (stringify newUser) (localStorage s)).

Definition logout (s : session) : session :=
  mkSession noUser (removeItem "user" (localStorage s)).

(** What the first effect of AppProvider does for the user when the
    application starts over a storage: [user] starts as [noUser];
    [if (storedUser) setUser(JSON.parse(storedUser))]. *)
Definition start (storage : Storage) : outcome session :=
  match getItem "user" storage with
  | Some (c :: stored) =>
      obind (await (parse (c :: stored))) (fun u =>
      Returned (mkSession u storage))
  | _ => Returned (mkSession noUser storage)
  end.
End Session.

(** [String(n)] for an integer. *)
Definition numberToString (n : Z) : jsstring :=
  utf16 (NilZero.string_of_int (Z.to_int n)).

(** What a screen shows of a conversion, and the page it downloads to. *)
Record screen (Bytes : Type) : Type := mkScreen {
  status : ProcessingStatus;
  page : Download.page Bytes
}.
Arguments mkScreen {Bytes} status page.
Arguments status {Bytes} _.
Arguments page {Bytes} _.

(** [try { const bytes = await convert; downloadPdf(bytes, fileName);
          setStatus('success'); } catch (e) { setStatus('error'); }]
    after [setStatus('processing')]. *)
Definition convertAndDownload {Bytes} (converted : outcome Bytes)
  (fileName : jsstring) (s : screen Bytes) : screen Bytes :=
  match converted with
  | Thrown _ => mkScreen error (page s)
  | Returned pdfBytes =>
      match Download.downloadPdf pdfBytes fileName (page s) with
      | (Returned _, p) => mkScreen success p
      | (Thrown _, p) => mkScreen error p
      end
  end.

Section SplitScreen.
Context {Bytes Page : Type} `{PdfLib Bytes Page}.

(** handleSplit of SplitPdfScreen; [now] is [Date.now()].
    [if (!file || !range) return;] *)
Definition handleSplit (file : option (File Bytes)) (range : jsstring)
  (now : Z) (s : screen Bytes) : screen Bytes :=
  match file, range with
  | Some file, _ :: _ =>
      convertAndDownload (splitPdf file range)
        (utf16 "split_" ++ numberToString now ++ utf16 ".pdf") s
  | _, _ => s
  end.

(** handleMerge of MergePdfScreen. *)
Definition handleMerge (files : list (File Bytes)) (now : Z)
  (s : screen Bytes) : screen Bytes :=
  convertAndDownload (mergePdfs files)
    (utf16 "merged_" ++ numberToString now ++ utf16 ".pdf") s.
End SplitScreen.

(** [fetch(url)] then [res.blob()] on a data URL; [None] when it rejects. *)
Class Fetch (Bytes : Type) : Type := {
  fetchBlob : jsstring -> option Bytes
}.

(** CameraToPdfScreen. *)
Record camera (Bytes : Type) : Type := mkCamera {
  capturedImages : list jsstring;
  isCameraActive : bool;
  cameraScreen : screen Bytes
}.
Arguments mkCamera {Bytes} capturedImages isCameraActive cameraScreen.
Arguments capturedImages {Bytes} _.
Arguments isCameraActive {Bytes} _.
Arguments cameraScreen {Bytes} _.

Section CameraScreen.
Context {Bytes Image : Type}.
Context `{ImageEmbedder Bytes Image} `{PdfLib Bytes (NewPage Z Image)}.
Context `{Fetch Bytes}.

(** [Promise.all(capturedImages.map(async (url, idx) => ...
       new File([blob], `scan_${idx}.jpg`, { type: 'image/jpeg' })))] *)
Fixpoint filesOf (urls : list jsstring) : outcome (list (File Bytes)) :=
  match urls with
  | [] => Returned []
  | url :: rest =>
      obind (await (fetchBlob url)) (fun blob =>
      obind (filesOf rest) (fun files =>
      Returned (mkFile "image/jpeg" blob :: files)))
  end.

(** convertToPdf; [stopCamera()] leaves the camera inactive. *)
Definition convertToPdf (now : Z) (c : camera Bytes) : camera Bytes :=
  match capturedImages c with
  | [] => c
  | urls =>
      mkCamera urls false
        (convertAndDownload (obind (filesOf urls) imagesToPdf)
           (utf16 "scan_" ++ numberToString now ++ utf16 ".pdf")
           (cameraScreen c))
  end.
End CameraScreen.

(** [reader.readAsDataURL(file)]: what [reader.result] is when
    [onloadend] fires; [None] is [null], after a failed read. *)
Class FileReader (Bytes : Type) : Type := {
  readAsDataURL : File Bytes -> option jsstring
}.

(** [(reader.result as string).split(',')[1]]; [undefined] is [None]. *)
Definition base64Of (dataUrl : jsstring) : option jsstring :=
  nth_error (split comma dataUrl) 1.

(** OcrScannerScreen and BgRemoverScreen: the text or the image shown,
    and the status. *)
Record scanner : Type := mkScanner {
  result : jsstring;
  scanStatus : ProcessingStatus
}.

Record remover : Type := mkRemover {
  resultImage : option jsstring;
  removeStatus : ProcessingStatus
}.

Section ServiceScreens.
Context {Bytes : Type} `{FileReader Bytes}.
Context `{Gemini.Service (option jsstring)}.

(** handleOcr.  The [try] holds the creation of the reader and the start
    of the read, which do not throw; the work is done later, in
    [reader.onloadend], an [async] callback: what it throws rejects its
    own promise and reaches no [catch], so the status stays as
    [setStatus('processing')] left it. *)
Definition handleOcr (file : option (File Bytes)) (s : scanner) : scanner :=
  match file with
  | None => s
  | Some file =>
      match readAsDataURL file with
      | None => mkScanner (result s) processing
      | Some dataUrl =>
          match fst (Gemini.performOCR (base64Of dataUrl)) with
          | Returned text => mkScanner text success
          | Thrown _ => mkScanner (result s) processing
          end
      end
  end.

(** handleRemoveBg, built like handleOcr. *)
Definition handleRemoveBg (file : option (File Bytes)) (s : remover)
  : remover :=
  match file with
  | None => s
  | Some file =>
      match readAsDataURL file with
      | None => mkRemover (resultImage s) processing
      | Some dataUrl =>
          match fst (Gemini.removeImageBackground (base64Of dataUrl)) with
          | Returned newImageBase64 =>
              mkRemover (Some (utf16 "data:image/jpeg;base64," ++ newImageBase64))
                success
          | Thrown _ => mkRemover (resultImage s) processing
          end
      end
  end.
End ServiceScreens.

End App.

(** ** Sample data *)

(** Sample files: a JPEG or a PNG of a given pixel size, a PDF given by
    the labels of its pages, and bytes that are none of these. *)
Inductive sample : Type :=
| jpegData (w h : Z)
| pngData (w h : Z)
| pdfData (labels : list string)
| junk.

#[local] Instance samplePdfLib : PdfLib sample string | 0 := {
  load b := match b with pdfData labels => Some labels | _ => None end;
  serializeToBuffer := pdfData;
  defaultPage := "blank"%string
}.

#[local] Instance sampleEmbedder : ImageEmbedder sample (Z * Z) := {
  embedJpg b := match b with jpegData w h => Some (w, h) | _ => None end;
  embedPng b := match b with pngData w h => Some (w, h) | _ => None end;
  imageWidth := fst;
  imageHeight := snd
}.

(** The pages that the module builds are written out as labels: "image"
    for a page with a drawing, "blank" for one without. *)
Definition pageLabel {Num : Type} (page : NewPage Num (Z * Z)) : string :=
  match drawn page with
  | [] => "blank"
  | _ => "image"
  end.

#[local] Instance sampleWriter
  : PdfLib sample (NewPage Z (Z * Z)) | 9 := {
  load _ := None;
  serializeToBuffer pages := pdfData (map pageLabel pages);
  defaultPage := mkPage (595, 842) []
}.

#[local] Instance sampleWriterQ
  : PdfLib sample (NewPage Q (Z * Z)) | 9 := {
  load _ := None;
  serializeToBuffer pages := pdfData (map pageLabel pages);
  defaultPage := mkPage (59528 # 100, 84189 # 100)%Q []
}.

(** Every sample page is 612 x 792 points; a canvas holds whole pixels. *)
#[local] Instance samplePdfJs : PdfJs sample string (Z * Z) := {
  getDocument := load;
  getViewport _ scale := (Qmult (612 # 1) scale, Qmult (792 # 1) scale);
  render _ _ canvasSize := Some (Qfloor (fst canvasSize), Qfloor (snd canvasSize))
}.

#[local] Instance sampleDom : Dom sample (Z * Z) := {
  getContext2d := true;
  toDataURL pixels _ _ := jpegData (fst pixels) (snd pixels)
}.

Definition pdfOf (labels : list string) : File sample :=
  mkFile "application/pdf" (pdfData labels).

Definition tenLabels : list string :=
  ["p1"; "p2"; "p3"; "p4"; "p5"; "p6"; "p7"; "p8"; "p9"; "p10"]%string.

Definition tenPages : File sample := pdfOf tenLabels.


(** Three sample pages, compressed at quality 0.6. *)
Definition threePages : File sample := pdfOf ["a"; "b"; "c"]%string.

(** Bytes that pdf-lib reads back as it saved them: a JPEG of a given
    pixel size, or a document of image pages. *)
Inductive stored : Type :=
| storedJpeg (w h : Z)
| storedPdf (pages : list (NewPage Z (Z * Z))).

Definition storedEmbedder : ImageEmbedder stored (Z * Z) := {|
  embedJpg b := match b with storedJpeg w h => Some (w, h) | _ => None end;
  embedPng _ := None;
  imageWidth := fst;
  imageHeight := snd
|}.

Definition storedPdfLib : PdfLib stored (NewPage Z (Z * Z)) := {|
  load b := match b with storedPdf pages => Some pages | _ => None end;
  serializeToBuffer := storedPdf;
  defaultPage := mkPage (595, 842) []
|}.

(** Every captured photo fetches as a 640 x 480 JPEG. *)
Definition storedFetch : App.Fetch stored := {|
  App.fetchBlob url :=
    match url with
    | [] => None
    | _ => Some (storedJpeg 640 480)
    end
|}.

(** A scanned document whose pages render ([true]) or not ([false]). *)
Inductive scan : Type :=
| scanPdf (pages : list bool)
| scanJpeg (w h : Z)
| scanSaved (pages : nat).

Definition scanPdfJs : PdfJs scan bool (Z * Z) := {|
  getDocument b := match b with scanPdf pages => Some pages | _ => None end;
  getViewport _ scale := (Qmult (612 # 1) scale, Qmult (792 # 1) scale);
  render page _ canvasSize :=
    if page : bool
    then Some (Qfloor (fst canvasSize), Qfloor (snd canvasSize))
    else None
|}.

Definition scanDom : Dom scan (Z * Z) := {|
  getContext2d := true;
  toDataURL pixels _ _ := scanJpeg (fst pixels) (snd pixels)
|}.

Definition scanEmbedder : ImageEmbedder scan (Z * Z) := {|
  embedJpg b := match b with scanJpeg w h => Some (w, h) | _ => None end;
  embedPng _ := None;
  imageWidth := fst;
  imageHeight := snd
|}.

Definition scanWriter : PdfLib scan (NewPage Q (Z * Z)) := {|
  load _ := None;
  serializeToBuffer pages := scanSaved (List.length pages);
  defaultPage := mkPage (59528 # 100, 84189 # 100)%Q []
|}.

(** A page on which nothing was created yet. *)
Definition blankPage {Bytes : Type} : Download.page Bytes :=
  Download.mkPage [] 0 [] 0 [].

(** A serialization of user profiles: the flag, the length of the name,
    the name, the address. *)
Definition sampleJson : App.Json := {|
  App.stringify u :=
    (if App.isLoggedIn u then 1 else 0)
    :: Z.of_nat (List.length (App.name u)) :: App.name u ++ App.email u;
  App.parse s :=
    match s with
    | flag :: n :: rest =>
        Some (App.mkUser (firstn (Z.to_nat n) rest) (skipn (Z.to_nat n) rest)
                (flag =? 1))
    | _ => None
    end
|}.

(** A service with a key that reads "Hello" in every image. *)
Definition sampleService : Gemini.Service (option jsstring) := {|
  Gemini.apiKey := utf16 "key";
  Gemini.generateContent _ :=
    Some (Gemini.mkResponse (Some (utf16 "Hello")) None)
|}.

(** Scanned sheets, each given by its size in points; the canvas keeps
    the whole pixels of the size it is given, and what is written can be
    read back. *)
Inductive sheets : Type :=
| sheetsPdf (sizes : list (Q * Q))
| sheetsJpeg (w h : Z)
| sheetsWritten (pages : list (NewPage Q (Z * Z))).

Definition sheetsPdfJs : PdfJs sheets (Q * Q) (Z * Z) := {|
  getDocument b := match b with sheetsPdf sizes => Some sizes | _ => None end;
  getViewport size scale := (Qmult (fst size) scale, Qmult (snd size) scale);
  render _ _ canvasSize :=
    Some (Qfloor (fst canvasSize), Qfloor (snd canvasSize))
|}.

Definition sheetsDom : Dom sheets (Z * Z) := {|
  getContext2d := true;
  toDataURL pixels _ _ := sheetsJpeg (fst pixels) (snd pixels)
|}.

Definition sheetsEmbedder : ImageEmbedder sheets (Z * Z) := {|
  embedJpg b := match b with sheetsJpeg w h => Some (w, h) | _ => None end;
  embedPng _ := None;
  imageWidth := fst;
  imageHeight := snd
|}.

Definition sheetsPdfLib : PdfLib sheets (NewPage Q (Z * Z)) := {|
  load b := match b with sheetsWritten pages => Some pages | _ => None end;
  serializeToBuffer := sheetsWritten;
  defaultPage := mkPage (59528 # 100, 84189 # 100)%Q []
|}.

(** One A4 sheet: 595.28 x 841.89 points. *)
Definition a4Sheet : File sheets :=
  mkFile "application/pdf" (sheetsPdf [(59528 # 100, 84189 # 100)%Q]).

(** * Properties *)

(** ** The JavaScript primitives on samples *)

Example split_commas :
  split comma (utf16 "1-3, 5,,x") = [utf16 "1-3"; utf16 " 5"; []; utf16 "x"].
Proof. reflexivity. Qed.

Example split_empty : split comma [] = [[]].
Proof. reflexivity. Qed.

Example split_dashes : split hyphen (utf16 "-5-") = [[]; utf16 "5"; []].
Proof. reflexivity. Qed.

Example trim_both_sides : trim (9 :: utf16 "  7 8 " ++ [160; 10]) = utf16 "7 8".
Proof. reflexivity. Qed.

Example parseInt_samples :
  map parseInt
    [utf16 "42"; utf16 "  +7abc"; utf16 "-5"; utf16 "08"; utf16 "0x1A";
     utf16 "0x"; utf16 "abc"; utf16 ""; utf16 "3.9"; utf16 "1e3"]
  = [Some 42; Some 7; Some (-5); Some 8; Some 26;
     None; None; None; Some 3; Some 1].
Proof. reflexivity. Qed.

Example sort_numeric :
  Array_sort (fun a b => a - b) [10; 9; 1; 100; 2] = [1; 2; 9; 10; 100].
Proof. reflexivity. Qed.

(** ** parseInt reads the longest digit prefix *)

(** A decimal digit, and its value. *)
Lemma digitValue_decimal (c : Z) :
  48 <= c <= 57 -> digitValue c = Some (c - 48).
Proof.
  intros Hc. unfold digitValue.
  replace ((48 <=? c) && (c <=? 57)) with true; [reflexivity|].
  symmetry. apply andb_true_iff. split; apply Z.leb_le; lia.
Qed.

(** A code unit that is no decimal digit does not pass as a digit of
    radix 10. *)
Lemma digitValue_not_decimal (c d : Z) :
  ~ 48 <= c <= 57 -> digitValue c = Some d -> 10 <= d.
Proof.
  intros Hc. unfold digitValue.
  destruct ((48 <=? c) && (c <=? 57)) eqn:E1.
  { apply andb_true_iff in E1. destruct E1 as [A B].
    apply Z.leb_le in A, B. lia. }
  destruct ((97 <=? c) && (c <=? 122)) eqn:E2.
  { apply andb_true_iff in E2. destruct E2 as [A B].
    apply Z.leb_le in A, B. intros [= <-]. lia. }
  destruct ((65 <=? c) && (c <=? 90)) eqn:E3; [|discriminate].
  apply andb_true_iff in E3. destruct E3 as [A B].
  apply Z.leb_le in A, B. intros [= <-]. lia.
Qed.

Lemma radixDigits_decimal_prefix (ds : jsstring) (c : Z) (rest : jsstring) :
  Forall (fun d => 48 <= d <= 57) ds ->
  ~ 48 <= c <= 57 ->
  radixDigits 10 (ds ++ c :: rest) = map (fun d => d - 48) ds
  /\ radixDigits 10 ds = map (fun d => d - 48) ds.
Proof.
  intros Hds Hc. induction Hds as [|d ds Hd Hds [IH1 IH2]].
  - split; [|reflexivity]. simpl.
    destruct (digitValue c) as [v|] eqn:E; [|reflexivity].
    apply (digitValue_not_decimal _ _ Hc) in E.
    destruct (v <? 10) eqn:L; [apply Z.ltb_lt in L; lia | reflexivity].
  - simpl. rewrite (digitValue_decimal d Hd), IH1, IH2.
    replace (d - 48 <? 10) with true by (symmetry; apply Z.ltb_lt; lia).
    split; reflexivity.
Qed.

(** A term that starts with a digit 1-9 parses as its decimal digits,
    whatever follows the last of them. *)
Lemma parseInt_digit_prefix (d0 : Z) (ds : jsstring) (c : Z) (rest : jsstring) :
  49 <= d0 <= 57 ->
  Forall (fun d => 48 <= d <= 57) ds ->
  ~ 48 <= c <= 57 ->
  parseInt ((d0 :: ds) ++ c :: rest)
  = Some (digitsValue 10 (map (fun d => d - 48) (d0 :: ds)))
  /\ parseInt (d0 :: ds)
     = Some (digitsValue 10 (map (fun d => d - 48) (d0 :: ds))).
Proof.
  intros Hd0 Hds Hc.
  assert (Hall : Forall (fun d => 48 <= d <= 57) (d0 :: ds))
    by (constructor; [lia | exact Hds]).
  destruct (radixDigits_decimal_prefix (d0 :: ds) c rest Hall Hc) as [P1 P2].
  cbn [app] in P1.
  assert (Hcases : d0 = 49 \/ d0 = 50 \/ d0 = 51 \/ d0 = 52 \/ d0 = 53
                   \/ d0 = 54 \/ d0 = 55 \/ d0 = 56 \/ d0 = 57) by lia.
  unfold parseInt.
  repeat (destruct Hcases as [-> | Hcases]);
    try subst d0;
    cbn [trimStart isWhiteSpace app Z.leb Z.eqb Z.compare Pos.compare
         Pos.compare_cont andb orb Pos.eqb];
    rewrite ?P1, ?P2; cbn [map]; rewrite Z.mul_1_l; split; reflexivity.
Qed.

(** ** Sets and sorting *)

Lemma Set_has_In (s : list Z) (x : Z) : Set_has s x = true <-> In x s.
Proof.
  unfold Set_has. rewrite existsb_exists. split.
  - intros (y & Hy & Heq). apply Z.eqb_eq in Heq. now subst.
  - intros Hin. exists x. split; [assumption | apply Z.eqb_refl].
Qed.

Lemma Set_add_In (s : list Z) (x y : Z) :
  In y (Set_add s x) <-> In y s \/ y = x.
Proof.
  unfold Set_add. destruct (Set_has s x) eqn:E.
  - apply Set_has_In in E. split; [tauto | intros [?| ->]; assumption].
  - rewrite in_app_iff. simpl. intuition congruence.
Qed.

Lemma Set_add_NoDup (s : list Z) (x : Z) : NoDup s -> NoDup (Set_add s x).
Proof.
  intros Hs. unfold Set_add. destruct (Set_has s x) eqn:E; [assumption|].
  assert (Hx : ~ In x s).
  { intros Hin. apply Set_has_In in Hin. congruence. }
  clear E. induction Hs as [|a l Ha Hl IH]; simpl.
  - constructor; [intros [] | constructor].
  - constructor.
    + rewrite in_app_iff. simpl. intros [Hin | [-> | []]].
      * contradiction.
      * apply Hx. now left.
    + apply IH. intros Hin. apply Hx. now right.
Qed.

Lemma sortInsert_Permutation cmp (x : Z) (l : list Z) :
  Permutation (x :: l) (sortInsert cmp x l).
Proof.
  induction l as [|y l IH]; simpl.
  - apply Permutation_refl.
  - destruct (cmp x y <=? 0).
    + apply Permutation_refl.
    + eapply perm_trans; [apply perm_swap|]. now apply perm_skip.
Qed.

Lemma Array_sort_Permutation cmp (l : list Z) :
  Permutation l (Array_sort cmp l).
Proof.
  induction l as [|x l IH]; simpl.
  - apply perm_nil.
  - eapply perm_trans; [apply perm_skip, IH|]. apply sortInsert_Permutation.
Qed.

Lemma Array_sort_In cmp (l : list Z) (x : Z) :
  In x (Array_sort cmp l) <-> In x l.
Proof.
  split; apply Permutation_in;
    [apply Permutation_sym|]; apply Array_sort_Permutation.
Qed.

Lemma sortInsert_sorted (x : Z) (l : list Z) :
  StronglySorted Z.le l ->
  StronglySorted Z.le (sortInsert (fun a b => a - b) x l).
Proof.
  induction 1 as [|y l Hl IH Hy]; simpl.
  - repeat constructor.
  - destruct (x - y <=? 0) eqn:E.
    + apply Z.leb_le in E. constructor.
      * now constructor.
      * constructor; [lia|].
        eapply Forall_impl; [|exact Hy]. simpl. intros; lia.
    + apply Z.leb_gt in E. constructor; [exact IH|].
      rewrite Forall_forall in *. intros z Hz.
      apply (Permutation_in _ (Permutation_sym (sortInsert_Permutation _ x l))) in Hz.
      destruct Hz as [<- | Hz]; [lia | now apply Hy].
Qed.

Lemma Array_sort_sorted (l : list Z) :
  StronglySorted Z.le (Array_sort (fun a b => a - b) l).
Proof.
  induction l as [|x l IH]; simpl.
  - constructor.
  - now apply sortInsert_sorted.
Qed.

(** A sorted list without repetition is strictly ascending. *)
Lemma sorted_NoDup_strict (l : list Z) :
  StronglySorted Z.le l -> NoDup l -> StronglySorted Z.lt l.
Proof.
  induction 1 as [|x l Hl IH Hx]; intros Hnd.
  - constructor.
  - inversion Hnd as [|? ? Hnotin Hnd']; subst. constructor.
    + now apply IH.
    + rewrite Forall_forall in *. intros y Hy.
      specialize (Hx y Hy). assert (x <> y) by (intros ->; contradiction). lia.
Qed.

Lemma Array_sort_strict (l : list Z) :
  NoDup l -> StronglySorted Z.lt (Array_sort (fun a b => a - b) l).
Proof.
  intros Hnd. apply sorted_NoDup_strict.
  - apply Array_sort_sorted.
  - eapply Permutation_NoDup; [apply Array_sort_Permutation | exact Hnd].
Qed.

(** ** The range loop *)

(** What one range adds: the pages [i..end] that the document has. *)
Lemma rangeLoop_In (fuel : nat) (i e t : Z) (s : list Z) (y : Z) :
  (Z.to_nat (e + 1 - i) <= fuel)%nat ->
  In y (rangeLoop fuel i e t s) <->
  In y s \/ (i <= y + 1 <= e /\ 1 <= y + 1 <= t).
Proof.
  revert i s. induction fuel as [|fuel IH]; intros i s Hfuel; simpl.
  - split; [tauto | intros [?|?]; [assumption | lia]].
  - destruct (i <=? e) eqn:E.
    + apply Z.leb_le in E. rewrite IH by lia.
      destruct ((1 <=? i) && (i <=? t)) eqn:B.
      * apply andb_true_iff in B. destruct B as [B1 B2].
        apply Z.leb_le in B1, B2. rewrite Set_add_In.
        destruct (Z.eq_dec y (i - 1)) as [->|Hne]; intuition lia.
      * apply andb_false_iff in B.
        assert (Hout : i < 1 \/ t < i).
        { destruct B as [B|B]; apply Z.leb_gt in B; lia. }
        destruct (Z.eq_dec y (i - 1)) as [->|Hne]; intuition lia.
    + apply Z.leb_gt in E. split; [tauto | intros [?|?]; [assumption | lia]].
Qed.

(** More fuel than [rangeFuel] changes nothing: the loop has ended. *)
Lemma rangeLoop_fuel (fuel : nat) (i e t : Z) (s : list Z) :
  (Z.to_nat (e + 1 - i) <= fuel)%nat ->
  rangeLoop fuel i e t s = rangeLoop (rangeFuel i e) i e t s.
Proof.
  unfold rangeFuel. revert i s.
  induction fuel as [|fuel IH]; intros i s Hfuel.
  - replace (Z.to_nat (e + 1 - i)) with 0%nat by lia. reflexivity.
  - simpl. destruct (i <=? e) eqn:E.
    + apply Z.leb_le in E.
      replace (Z.to_nat (e + 1 - i)) with (S (Z.to_nat (e + 1 - (i + 1)))) by lia.
      simpl. apply Z.leb_le in E. rewrite E. apply IH. lia.
    + apply Z.leb_gt in E.
      replace (Z.to_nat (e + 1 - i)) with 0%nat by lia. reflexivity.
Qed.

Lemma rangeLoop_NoDup (fuel : nat) (i e t : Z) (s : list Z) :
  NoDup s -> NoDup (rangeLoop fuel i e t s).
Proof.
  revert i s. induction fuel as [|fuel IH]; intros i s Hs; simpl.
  - assumption.
  - destruct (i <=? e); [|assumption]. apply IH.
    destruct ((1 <=? i) && (i <=? t)); [now apply Set_add_NoDup | assumption].
Qed.

(** ** The collected pages *)

Lemma wellFormed_add (t : Z) (s : list Z) (n : Z) :
  1 <= n <= t -> wellFormed t s -> wellFormed t (Set_add s (n - 1)).
Proof.
  intros Hn [Hnd Hin]. split.
  - now apply Set_add_NoDup.
  - rewrite Forall_forall in *. intros y Hy.
    apply Set_add_In in Hy. destruct Hy as [Hy | ->]; [now apply Hin | lia].
Qed.

Lemma wellFormed_rangeLoop (t : Z) (s : list Z) (start e : Z) :
  wellFormed t s -> wellFormed t (rangeLoop (rangeFuel start e) start e t s).
Proof.
  intros [Hnd Hin]. split.
  - now apply rangeLoop_NoDup.
  - rewrite Forall_forall in *. intros y Hy.
    apply rangeLoop_In in Hy; [|unfold rangeFuel; lia].
    destruct Hy as [Hy | Hy]; [now apply Hin | lia].
Qed.

Lemma wellFormed_forEachPart (t : Z) (s : list Z) (part : jsstring) :
  wellFormed t s -> wellFormed t (forEachPart t s part).
Proof.
  intros Hs. unfold forEachPart. destruct (includes hyphen part).
  - destruct (rangeEnds part) as [|[start|] [|[e|] ?]]; try assumption.
    now apply wellFormed_rangeLoop.
  - destruct (parseInt (trim part)) as [pageNum|]; [|assumption].
    destruct ((1 <=? pageNum) && (pageNum <=? t)) eqn:B; [|assumption].
    apply andb_true_iff in B. destruct B as [B1 B2].
    apply Z.leb_le in B1, B2. now apply wellFormed_add.
Qed.

Lemma wellFormed_fold (t : Z) (parts : list jsstring) (s : list Z) :
  wellFormed t s -> wellFormed t (fold_left (forEachPart t) parts s).
Proof.
  revert s. induction parts as [|part parts IH]; intros s Hs; simpl.
  - assumption.
  - apply IH. now apply wellFormed_forEachPart.
Qed.

Lemma wellFormed_pagesToKeep (rangeStr : jsstring) (t : Z) :
  wellFormed t (pagesToKeep rangeStr t).
Proof.
  apply wellFormed_fold. split; constructor.
Qed.

Lemma indices_strict (rangeStr : jsstring) (t : Z) :
  StronglySorted Z.lt (indices rangeStr t).
Proof.
  apply Array_sort_strict, wellFormed_pagesToKeep.
Qed.

Lemma indices_NoDup (rangeStr : jsstring) (t : Z) : NoDup (indices rangeStr t).
Proof.
  eapply Permutation_NoDup; [apply Array_sort_Permutation|].
  apply wellFormed_pagesToKeep.
Qed.

Lemma indices_bounds (rangeStr : jsstring) (t : Z) :
  Forall (fun i => 0 <= i < t) (indices rangeStr t).
Proof.
  rewrite Forall_forall. intros y Hy. apply Array_sort_In in Hy.
  destruct (wellFormed_pagesToKeep rangeStr t) as [_ Hin].
  rewrite Forall_forall in Hin. now apply Hin.
Qed.

(** ** Which pages are selected *)

Lemma forEachPart_In (t : Z) (s : list Z) (part : jsstring) (y : Z) :
  In y (forEachPart t s part) <-> In y s \/ selects t part (y + 1).
Proof.
  unfold forEachPart, selects. destruct (includes hyphen part).
  - destruct (rangeEnds part) as [|[start|] [|[e|] rest]];
      try (split; [tauto|];
           intros [?|(_ & ? & ? & ? & ? & _)]; [assumption | discriminate]).
    rewrite rangeLoop_In by (unfold rangeFuel; lia). split.
    + intros [?|[? ?]]; [now left | right].
      split; [assumption | exists start, e, rest; now split].
    + intros [?|(? & start' & e' & rest' & Heq & ?)]; [now left | right].
      injection Heq as <- <- <-. now split.
  - destruct (parseInt (trim part)) as [pageNum|].
    + destruct ((1 <=? pageNum) && (pageNum <=? t)) eqn:B.
      * apply andb_true_iff in B. destruct B as [B1 B2].
        apply Z.leb_le in B1, B2. rewrite Set_add_In. split.
        -- intros [?| ->]; [now left | right].
           split; [lia | f_equal; lia].
        -- intros [?|[_ Heq]]; [now left | right].
           injection Heq as ->. lia.
      * apply andb_false_iff in B.
        split; [tauto | intros [?|[Hy Heq]]; [assumption|]].
        injection Heq as ->.
        destruct B as [B|B]; apply Z.leb_gt in B; lia.
    + split; [tauto | intros [?|[_ ?]]; [assumption | discriminate]].
Qed.

Lemma fold_forEachPart_In (t : Z) (parts : list jsstring) (s : list Z) (y : Z) :
  In y (fold_left (forEachPart t) parts s) <->
  In y s \/ exists part, In part parts /\ selects t part (y + 1).
Proof.
  revert s. induction parts as [|part parts IH]; intros s; simpl.
  - split; [tauto | intros [?|(? & [] & _)]; assumption].
  - rewrite IH, forEachPart_In. split.
    + intros [[?|?]|(p & ? & ?)].
      * now left.
      * right. exists part. split; [now left | assumption].
      * right. exists p. split; [now right | assumption].
    + intros [?|(p & [<-|?] & ?)].
      * left. now left.
      * left. now right.
      * right. exists p. now split.
Qed.

(** The resolved indices are those of the pages that some term selects. *)
Lemma indices_In (rangeStr : jsstring) (t : Z) (y : Z) :
  In y (indices rangeStr t) <->
  exists part, In part (split comma rangeStr) /\ selects t part (y + 1).
Proof.
  unfold indices, pagesToKeep. rewrite Array_sort_In, fold_forEachPart_In.
  split; [intros [[]|?]; assumption | now right].
Qed.

(** ** Claims on the range parsing *)

(** C1: for every range expression and every [totalPages], the indices
    that splitPdf resolves are strictly ascending, hold no index twice,
    and each lies in [0, totalPages). *)
Theorem indices_ascending_in_range (rangeStr : jsstring) (totalPages : Z) :
  StronglySorted Z.lt (indices rangeStr totalPages)
  /\ NoDup (indices rangeStr totalPages)
  /\ Forall (fun i => 0 <= i < totalPages) (indices rangeStr totalPages).
Proof.
  split; [apply indices_strict|].
  split; [apply indices_NoDup | apply indices_bounds].
Qed.

(** C9: a term made of an integer followed by other characters is taken
    as that integer, not dropped: [parseInt] reads the longest digit
    prefix, so a term starting with a digit 1-9 parses to the value of its
    decimal digits whatever follows them; ["3x"] over a 10-page document
    resolves to the single index 2. *)
Theorem trailing_characters_accepted :
  (forall d0 ds c rest,
      49 <= d0 <= 57 ->
      Forall (fun d => 48 <= d <= 57) ds ->
      ~ 48 <= c <= 57 ->
      parseInt ((d0 :: ds) ++ c :: rest) = parseInt (d0 :: ds)
      /\ parseInt (d0 :: ds)
         = Some (digitsValue 10 (map (fun d => d - 48) (d0 :: ds))))
  /\ parseInt (utf16 "3x") = Some 3
  /\ forEachPart 10 [] (utf16 "3x") = [2]
  /\ indices (utf16 "3x") 10 = [2].
Proof.
  split.
  - intros d0 ds c rest Hd0 Hds Hc.
    destruct (parseInt_digit_prefix d0 ds c rest Hd0 Hds Hc) as [P1 P2].
    split; congruence.
  - repeat split; reflexivity.
Qed.

(** ** pdf-lib page copying *)

Section PdfLibFacts.
Context {Page : Type}.

Lemma fold_addPage (copiedPages pdf : list Page) :
  fold_left addPage copiedPages pdf = pdf ++ copiedPages.
Proof.
  revert pdf. induction copiedPages as [|p ps IH]; intros pdf; simpl.
  - now rewrite app_nil_r.
  - rewrite IH. unfold addPage. now rewrite <- app_assoc.
Qed.

(** Indices that the source has are all copied, each to its page and in
    the order given. *)
Lemma copyPages_in_range (srcPdf : list Page) (idx : list Z) :
  Forall (fun i => 0 <= i < getPageCount srcPdf) idx ->
  exists pages,
    copyPages srcPdf idx = Some pages
    /\ Forall2 (fun i p => pageAt srcPdf i = Some p) idx pages.
Proof.
  induction 1 as [|i idx Hi Hidx (pages & Hcopy & Hall)].
  - exists []. split; [reflexivity | constructor].
  - unfold getPageCount in Hi.
    destruct (nth_error srcPdf (Z.to_nat i)) as [p|] eqn:Hp.
    + assert (Hat : pageAt srcPdf i = Some p).
      { unfold pageAt. destruct (i <? 0) eqn:E; [|exact Hp].
        apply Z.ltb_lt in E. lia. }
      exists (p :: pages). simpl. rewrite Hat, Hcopy.
      split; [reflexivity | now constructor].
    + apply nth_error_None in Hp. lia.
Qed.

Lemma copyPages_seq (before pdf : list Page) :
  copyPages (before ++ pdf)
    (map Z.of_nat (seq (List.length before) (List.length pdf))) = Some pdf.
Proof.
  revert before. induction pdf as [|p pdf IH]; intros before.
  - reflexivity.
  - cbn [List.length seq map copyPages].
    assert (Hat : pageAt (before ++ p :: pdf) (Z.of_nat (List.length before))
                  = Some p).
    { unfold pageAt. destruct (Z.of_nat _ <? 0) eqn:E.
      - apply Z.ltb_lt in E. lia.
      - rewrite Nat2Z.id, nth_error_app2 by lia.
        now rewrite Nat.sub_diag. }
    rewrite Hat.
    specialize (IH (before ++ [p])).
    rewrite <- app_assoc, length_app in IH. simpl in IH.
    rewrite Nat.add_1_r in IH. now rewrite IH.
Qed.

(** Copying every page index of a document gives its pages back. *)
Lemma copyPages_all (pdf : list Page) :
  copyPages pdf (getPageIndices pdf) = Some pdf.
Proof.
  exact (copyPages_seq [] pdf).
Qed.
End PdfLibFacts.

(** ** save *)

Section SaveFacts.
Context {Bytes Page : Type} `{PdfLib Bytes Page}.

(** A document with a page is written as it is. *)
Lemma save_pages (pdf : list Page) :
  pdf <> [] -> save pdf = serializeToBuffer pdf.
Proof.
  intros Hne. unfold save, getPageCount.
  destruct pdf as [|page pdf]; [congruence | reflexivity].
Qed.

(** A document without pages is written with the default page. *)
Lemma save_no_page : save (@create Page) = serializeToBuffer [defaultPage].
Proof. reflexivity. Qed.

(** What pdf-lib reads back from what [save] wrote, when it reads back
    the pages it writes. *)
Lemma pagesOf_save (pdf : list Page) :
  (forall pages : list Page, load (serializeToBuffer pages) = Some pages) ->
  pagesOf (Returned (save pdf))
  = Some (match pdf with [] => [defaultPage] | _ => pdf end).
Proof.
  intros Hround. unfold pagesOf, save, getPageCount.
  destruct pdf as [|page pdf]; cbn; apply Hround.
Qed.
End SaveFacts.

(** ** splitPdf and mergePdfs *)

Section MergeSplitFacts.
Context {Bytes Page : Type} `{PdfLib Bytes Page}.

Lemma splitPdf_loaded (file : File Bytes) (rangeStr : jsstring)
  (srcPdf : list Page) :
  load (arrayBuffer file) = Some srcPdf ->
  splitPdf file rangeStr =
  match indices rangeStr (getPageCount srcPdf) with
  | [] => Thrown (Error "Invalid page range")
  | idx => obind (await (copyPages srcPdf idx))
             (fun copiedPages => Returned (save copiedPages))
  end.
Proof.
  intros Hload. unfold splitPdf. rewrite Hload. cbn [await obind].
  destruct (indices rangeStr (getPageCount srcPdf)) as [|i idx] eqn:E.
  - reflexivity.
  - cbn [List.length]. destruct (Z.of_nat (S _) =? 0) eqn:Z0.
    + apply Z.eqb_eq in Z0. lia.
    + destruct (copyPages srcPdf (i :: idx)); [|reflexivity].
      cbn [await obind]. now rewrite fold_addPage.
Qed.

(** With a source that loads and a non-empty selection, splitPdf returns
    the pages at the resolved indices, in their order. *)
Lemma splitPdf_pages (file : File Bytes) (rangeStr : jsstring)
  (srcPdf : list Page) :
  load (arrayBuffer file) = Some srcPdf ->
  indices rangeStr (getPageCount srcPdf) <> [] ->
  exists pages,
    splitPdf file rangeStr = Returned (save pages)
    /\ Forall2 (fun i p => pageAt srcPdf i = Some p)
         (indices rangeStr (getPageCount srcPdf)) pages.
Proof.
  intros Hload Hne. rewrite (splitPdf_loaded _ _ _ Hload).
  destruct (copyPages_in_range srcPdf _
              (indices_bounds rangeStr (getPageCount srcPdf)))
    as (pages & Hcopy & Hall).
  exists pages. split; [|exact Hall].
  destruct (indices rangeStr (getPageCount srcPdf)); [congruence|].
  now rewrite Hcopy.
Qed.

(** The same, with the document that is written: it has a page, and is
    written as it is. *)
Lemma splitPdf_written (file : File Bytes) (rangeStr : jsstring)
  (srcPdf : list Page) :
  load (arrayBuffer file) = Some srcPdf ->
  indices rangeStr (getPageCount srcPdf) <> [] ->
  exists pages,
    pages <> []
    /\ splitPdf file rangeStr = Returned (serializeToBuffer pages)
    /\ Forall2 (fun i p => pageAt srcPdf i = Some p)
         (indices rangeStr (getPageCount srcPdf)) pages.
Proof.
  intros Hload Hne.
  destruct (splitPdf_pages file rangeStr srcPdf Hload Hne)
    as (pages & Hret & Hall).
  assert (Hpages : pages <> []).
  { intros ->. inversion Hall as [Hnil|]. now apply Hne. }
  exists pages. split; [exact Hpages|].
  split; [now rewrite Hret, (save_pages _ Hpages) | exact Hall].
Qed.


Lemma ten_pages (srcPdf : list Page) :
  getPageCount srcPdf = 10 ->
  exists p1 p2 p3 p4 p5 p6 p7 p8 p9 p10,
    srcPdf = [p1; p2; p3; p4; p5; p6; p7; p8; p9; p10].
Proof.
  unfold getPageCount. intros Hlen.
  assert (Hn : List.length srcPdf = 10%nat) by lia. clear Hlen.
  do 10 (destruct srcPdf as [|? srcPdf]; [discriminate|]).
  destruct srcPdf; [|discriminate]. repeat eexists.
Qed.

(** C2, amended: on a 10-page document ["1-3,5"] resolves to the indices
    0, 1, 2 and 4; ["5-2"] resolves to none and splitPdf throws "Invalid
    page range"; ["1, abc, 3"] resolves to 0 and 2, the middle term being
    dropped, and splitPdf returns pages 1 and 3. *)
Theorem range_examples (file : File Bytes) (srcPdf : list Page) :
  load (arrayBuffer file) = Some srcPdf ->
  getPageCount srcPdf = 10 ->
  indices (utf16 "1-3,5") 10 = [0; 1; 2; 4]
  /\ indices (utf16 "5-2") 10 = []
  /\ splitPdf file (utf16 "5-2") = Thrown (Error "Invalid page range")
  /\ indices (utf16 "1, abc, 3") 10 = [0; 2]
  /\ exists p1 p3,
       pageAt srcPdf 0 = Some p1 /\ pageAt srcPdf 2 = Some p3
       /\ splitPdf file (utf16 "1, abc, 3") = Returned (save [p1; p3]).
Proof.
  intros Hload Hten.
  split; [reflexivity|]. split; [reflexivity|].
  split; [rewrite (splitPdf_loaded _ _ _ Hload), Hten; reflexivity|].
  split; [reflexivity|].
  destruct (ten_pages _ Hten)
    as (p1 & p2 & p3 & p4 & p5 & p6 & p7 & p8 & p9 & p10 & ->).
  exists p1, p3. split; [reflexivity|]. split; [reflexivity|].
  rewrite (splitPdf_loaded _ _ _ Hload). reflexivity.
Qed.


Lemma mergeLoop_concat (files : list (File Bytes)) (pdfs : list (list Page))
  (mergedPdf : list Page) :
  Forall2 (fun file pdf => load (arrayBuffer file) = Some pdf) files pdfs ->
  mergeLoop files mergedPdf = Returned (mergedPdf ++ concat pdfs).
Proof.
  intros Hall. revert mergedPdf.
  induction Hall as [|file pdf files pdfs Hload Hall IH]; intros mergedPdf.
  - simpl. now rewrite app_nil_r.
  - cbn [mergeLoop concat]. rewrite Hload. cbn [await obind].
    rewrite copyPages_all. cbn [await obind].
    rewrite fold_addPage, IH. now rewrite app_assoc.
Qed.

Lemma getPageCount_concat (pdfs : list (list Page)) :
  getPageCount (concat pdfs) = fold_right Z.add 0 (map getPageCount pdfs).
Proof.
  unfold getPageCount. induction pdfs as [|pdf pdfs IH]; simpl.
  - reflexivity.
  - rewrite length_app, Nat2Z.inj_add, IH. reflexivity.
Qed.

(** C5: for inputs that all load and hold at least one page between
    them, mergePdfs returns the document of the inputs' pages, one input
    after the other, each in its own order, and the number of these pages
    is the sum of the inputs' page counts; pdf-lib reads exactly these
    pages back from the result when it reads back what it writes.  For
    inputs without any page the result is not the page-less document: it
    holds the one blank page that [save] adds. *)
Theorem mergePdfs_concat (files : list (File Bytes))
  (pdfs : list (list Page)) :
  Forall2 (fun file pdf => load (arrayBuffer file) = Some pdf) files pdfs ->
  (concat pdfs <> [] ->
   mergePdfs files = Returned (serializeToBuffer (concat pdfs)))
  /\ getPageCount (concat pdfs) = fold_right Z.add 0 (map getPageCount pdfs)
  /\ ((forall pages : list Page, load (serializeToBuffer pages) = Some pages) ->
      concat pdfs <> [] ->
      pagesOf (mergePdfs files) = Some (concat pdfs)
      /\ option_map getPageCount (pagesOf (mergePdfs files))
         = Some (fold_right Z.add 0 (map getPageCount pdfs)))
  /\ (concat pdfs = [] ->
      mergePdfs files = Returned (serializeToBuffer [defaultPage])).
Proof.
  intros Hall.
  assert (Hrun : mergePdfs files = Returned (save (concat pdfs))).
  { unfold mergePdfs. rewrite (mergeLoop_concat _ _ _ Hall). reflexivity. }
  split; [|split; [|split]].
  - intros Hne. now rewrite Hrun, (save_pages _ Hne).
  - apply getPageCount_concat.
  - intros Hround Hne. rewrite Hrun, (pagesOf_save _ Hround).
    destruct (concat pdfs) as [|page pages] eqn:E; [congruence|].
    split; [reflexivity|]. cbn [option_map].
    now rewrite <- E, getPageCount_concat.
  - intros Hnone. now rewrite Hrun, Hnone.
Qed.

(** C10: mergePdfs of no file does not throw; what it returns is not the
    page-less document but the document of one page, the blank page
    that [save] adds to a document without pages, and this is what
    pdf-lib reads back from it when it reads back what it writes. *)
Theorem mergePdfs_empty :
  mergePdfs [] = Returned (serializeToBuffer [defaultPage])
  /\ getPageCount [@defaultPage Bytes Page _] = 1
  /\ ((forall pages : list Page, load (serializeToBuffer pages) = Some pages) ->
      pagesOf (mergePdfs []) = Some [defaultPage]).
Proof.
  split; [reflexivity|]. split; [reflexivity|].
  intros Hround. apply Hround.
Qed.
End MergeSplitFacts.

(** ** imagesToPdf *)

Section ImagesToPdfFacts.
Context {Bytes Image : Type}.
Context `{ImageEmbedder Bytes Image} `{PdfLib Bytes (NewPage Z Image)}.

Lemma embedByType_skips (image : File Bytes) :
  embedByType image = None <-> acceptedType image = false.
Proof.
  unfold embedByType, acceptedType. simpl.
  destruct (String.eqb (type image) "image/jpeg");
    destruct (String.eqb (type image) "image/jpg");
    destruct (String.eqb (type image) "image/png");
    simpl; split; congruence.
Qed.

Lemma imagesLoop_pages (images : list (File Bytes)) (embedded : list Image)
  (pdfDoc : list (NewPage Z Image)) :
  Forall2 (fun image pdfImage => embedByType image = Some (Some pdfImage))
    (filter acceptedType images) embedded ->
  imagesLoop images pdfDoc = Returned (pdfDoc ++ map imagePage embedded).
Proof.
  revert embedded pdfDoc.
  induction images as [|image rest IH]; intros embedded pdfDoc Hall.
  - inversion Hall; subst. simpl. now rewrite app_nil_r.
  - cbn [filter] in Hall. cbn [imagesLoop].
    destruct (acceptedType image) eqn:Hacc.
    + inversion Hall as [|? pdfImage ? embedded' Hembed Hall']; subst.
      rewrite Hembed. cbn [await obind]. unfold scale.
      rewrite !Z.mul_1_r. rewrite (IH embedded' _ Hall').
      unfold addPage, drawImage, imagePage. cbn [mediaBox drawn app map].
      now rewrite <- app_assoc.
    + apply embedByType_skips in Hacc. rewrite Hacc. now apply IH.
Qed.

(** An accepted image that does not decode makes the whole call throw. *)
Lemma imagesLoop_decode_failure (images : list (File Bytes))
  (pdfDoc : list (NewPage Z Image)) :
  Exists (fun image => embedByType image = Some None) images ->
  imagesLoop images pdfDoc = Thrown LibraryError.
Proof.
  intros Hex. revert pdfDoc.
  induction images as [|image rest IH]; intros pdfDoc.
  - inversion Hex.
  - cbn [imagesLoop]. destruct (embedByType image) as [[pdfImage|]|] eqn:E.
    + cbn [await obind]. destruct (scale pdfImage 1) as [w h].
      apply IH. inversion Hex; subst; [congruence | assumption].
    + reflexivity.
    + apply IH. inversion Hex; subst; [congruence | assumption].
Qed.

End ImagesToPdfFacts.

(** ** compressPdf *)

Section CompressPdfFacts.
Context {Bytes SrcPage Raster Image : Type}.
Context `{PdfJs Bytes SrcPage Raster} `{Dom Bytes Raster}.
Context `{ImageEmbedder Bytes Image} `{PdfLib Bytes (NewPage Q Image)}.

Lemma compressPage_run (pdf : list SrcPage) (quality : Q) (onProgress : bool)
  (i numPages : Z) (page : SrcPage) (img : Image) (w : world) :
  1 <= i ->
  nth_error pdf (Z.to_nat (i - 1)) = Some page ->
  rendersTo quality page img ->
  compressPage pdf quality onProgress i numPages w =
  (Returned tt,
   mkWorld (log w ++ pageEvents onProgress quality numPages i page)
     (viewportOf page) (newPdfDoc w ++ [compressedPage page img])).
Proof.
  intros Hi Hpage (pixels & Hrender & Hembed).
  assert (Hlt : (i <? 1) = false) by (apply Z.ltb_ge; lia).
  destruct w as [l c d]. unfold compressPage, pageEvents.
  destruct onProgress;
    unfold bind, emit, ret, getPageM, getViewportM, resizeCanvas, renderM,
      toDataURLM, embedJpgM, addPageM, drawImageM, awaitM, bind, emit, ret;
    cbn [log canvas newPdfDoc fst snd];
    rewrite Hlt, Hpage; cbn [await];
    fold (viewportOf page);
    rewrite <- surjective_pairing, Hrender; cbn [await];
    rewrite Hembed; cbn [await x y width height];
    unfold addPage; rewrite rev_app_distr; cbn [rev app];
    rewrite rev_involutive;
    unfold compressedPage, drawImage; cbn [mediaBox drawn app];
    repeat rewrite <- app_assoc; reflexivity.
Qed.

Lemma compressLoop_run (quality : Q) (onProgress : bool)
  (todo : list SrcPage) (imgs : list Image) :
  Forall2 (rendersTo quality) todo imgs ->
  forall (before : list SrcPage) (fuel : nat) (w : world),
    (List.length todo <= fuel)%nat ->
    compressLoop fuel (before ++ todo) quality onProgress
      (Z.of_nat (List.length before) + 1)
      (Z.of_nat (List.length (before ++ todo))) w =
    (Returned tt,
     mkWorld
       (log w ++ loopEvents onProgress quality
                   (Z.of_nat (List.length (before ++ todo)))
                   (Z.of_nat (List.length before) + 1) todo)
       (fold_left (fun _ page => viewportOf page) todo (canvas w))
       (newPdfDoc w ++ compressedPages todo imgs)).
Proof.
  induction 1 as [|page img todo imgs Hpage Hall IH];
    intros before fuel w Hfuel.
  - destruct w as [l c d]. cbn [loopEvents compressedPages combine map fold_left
                                log canvas newPdfDoc].
    rewrite !app_nil_r.
    destruct fuel as [|fuel]; [reflexivity|]. cbn [compressLoop].
    destruct (Z.of_nat (List.length before) + 1 <=? Z.of_nat (List.length before))
      eqn:E; [apply Z.leb_le in E; lia | reflexivity].
  - destruct fuel as [|fuel]; [cbn [List.length] in Hfuel; lia|].
    cbn [compressLoop].
    assert (E : (Z.of_nat (List.length before) + 1
                 <=? Z.of_nat (List.length (before ++ page :: todo))) = true).
    { apply Z.leb_le. rewrite length_app. cbn [List.length]. lia. }
    rewrite E. unfold bind at 1.
    rewrite (compressPage_run _ _ _ _ _ page img).
    + specialize (IH (before ++ [page]) fuel).
      rewrite <- app_assoc in IH. cbn [app] in IH.
      replace (Z.of_nat (List.length (before ++ [page])) + 1)
        with (Z.of_nat (List.length before) + 1 + 1) in IH
        by (rewrite length_app; cbn [List.length]; lia).
      rewrite IH by (cbn [List.length] in Hfuel; lia).
      cbn [log canvas newPdfDoc loopEvents compressedPages combine map fst snd].
      cbn [fold_left]. f_equal. f_equal; now rewrite <- app_assoc.
    + lia.
    + replace (Z.to_nat (Z.of_nat (List.length before) + 1 - 1))
        with (List.length before) by lia.
      rewrite nth_error_app2 by lia. now rewrite Nat.sub_diag.
    + exact Hpage.
Qed.

(** The whole run: when the document loads, a 2d context is there and
    every page renders and embeds, compressPdf returns the serialisation
    of the pages of the loop, having made the calls of the loop. *)
Lemma compressPdf_run (file : File Bytes) (quality : Q) (onProgress : bool)
  (pdf : list SrcPage) (imgs : list Image) :
  getDocument (arrayBuffer file) = Some pdf ->
  getContext2d = true ->
  Forall2 (rendersTo quality) pdf imgs ->
  compressPdf file quality onProgress initial =
  (Returned (save (compressedPages pdf imgs)),
   mkWorld
     (loopEvents onProgress quality (Z.of_nat (List.length pdf)) 1 pdf)
     (fold_left (fun _ page => viewportOf page) pdf (canvas (@initial Image)))
     (compressedPages pdf imgs)).
Proof.
  intros Hdoc Hctx Hall. unfold compressPdf.
  unfold bind at 1. unfold awaitM. rewrite Hdoc. cbn [await].
  rewrite Hctx. unfold bind at 1. unfold ret at 1.
  unfold bind at 1.
  rewrite (compressLoop_run quality onProgress pdf imgs Hall [] _ initial)
    by (rewrite Nat2Z.id; apply Nat.le_refl).
  reflexivity.
Qed.

Lemma reports_loopEvents (quality : Q) (numPages : Z)
  (pages : list SrcPage) (i done : Z) :
  reports done (loopEvents true quality numPages i pages) =
  map (fun j => (j, numPages, j - i + done))
    (countFrom i (List.length pages)).
Proof.
  revert i done. induction pages as [|page pages IH]; intros i done.
  - reflexivity.
  - cbn [loopEvents pageEvents app reports List.length countFrom map].
    rewrite IH. f_equal.
    + f_equal. lia.
    + apply map_ext. intros j. f_equal. lia.
Qed.

Lemma reports_without_callback (quality : Q) (numPages : Z)
  (pages : list SrcPage) (i done : Z) :
  reports done (loopEvents false quality numPages i pages) = [].
Proof.
  revert i done. induction pages as [|page pages IH]; intros i done.
  - reflexivity.
  - cbn [loopEvents pageEvents app reports]. apply IH.
Qed.

Lemma viewportScales_loopEvents (onProgress : bool) (quality : Q)
  (numPages : Z) (pages : list SrcPage) (i : Z) :
  viewportScales (loopEvents onProgress quality numPages i pages) =
  map (fun j => (j, 3 # 2)) (countFrom i (List.length pages)).
Proof.
  revert i. induction pages as [|page pages IH]; intros i.
  - reflexivity.
  - cbn [loopEvents List.length countFrom map]. unfold viewportScales in *.
    rewrite flat_map_app, IH. now destruct onProgress.
Qed.

Lemma renderedSizes_loopEvents (onProgress : bool) (quality : Q)
  (numPages : Z) (pages : list SrcPage) (i : Z) :
  renderedSizes (loopEvents onProgress quality numPages i pages) =
  map viewportOf pages.
Proof.
  revert i. induction pages as [|page pages IH]; intros i.
  - reflexivity.
  - cbn [loopEvents map]. unfold renderedSizes in *.
    rewrite flat_map_app, IH. now destruct onProgress.
Qed.

Lemma encoderCalls_loopEvents (onProgress : bool) (quality : Q)
  (numPages : Z) (pages : list SrcPage) (i : Z) :
  encoderCalls (loopEvents onProgress quality numPages i pages) =
  map (fun _ => ("image/jpeg"%string, quality)) pages.
Proof.
  revert i. induction pages as [|page pages IH]; intros i.
  - reflexivity.
  - cbn [loopEvents map]. unfold encoderCalls in *.
    rewrite flat_map_app, IH. now destruct onProgress.
Qed.

Lemma compressedPages_mediaBox (pages : list SrcPage) (imgs : list Image) :
  List.length pages = List.length imgs ->
  map mediaBox (compressedPages pages imgs) = map viewportOf pages.
Proof.
  revert imgs. induction pages as [|page pages IH]; intros [|img imgs] Hlen;
    try discriminate; [reflexivity|].
  unfold compressedPages in *. cbn [combine map fst snd].
  rewrite IH by (cbn [List.length] in Hlen; lia). reflexivity.
Qed.

(** A turn that ends without throwing has fetched its page, rendered it
    and embedded the JPEG. *)
Lemma compressPage_returns (pdf : list SrcPage) (quality : Q)
  (onProgress : bool) (i numPages : Z) (w w' : world) :
  compressPage pdf quality onProgress i numPages w = (Returned tt, w') ->
  exists page img,
    (i <? 1) = false
    /\ nth_error pdf (Z.to_nat (i - 1)) = Some page
    /\ rendersTo quality page img.
Proof.
  destruct w as [l c d]. unfold compressPage.
  unfold bind, emit, ret, getPageM, getViewportM, resizeCanvas, renderM,
    toDataURLM, embedJpgM, addPageM, drawImageM, awaitM, bind, emit, ret.
  destruct onProgress; cbn [log canvas newPdfDoc fst snd];
    (destruct (i <? 1); [discriminate|]);
    (destruct (nth_error pdf (Z.to_nat (i - 1))) as [page|];
     [|discriminate]);
    cbn [await]; rewrite <- surjective_pairing;
    (destruct (render page (getViewport page (3 # 2))
                 (getViewport page (3 # 2))) as [pixels|] eqn:Hrender;
     [|discriminate]);
    cbn [await];
    (destruct (embedJpg (toDataURL pixels "image/jpeg" quality)) as [img|]
       eqn:Hembed; [|discriminate]);
    intros _; exists page, img; repeat split; exists pixels; split; assumption.
Qed.

Lemma compressLoop_returns (quality : Q) (onProgress : bool)
  (todo : list SrcPage) :
  forall (before : list SrcPage) (fuel : nat) (w w' : world),
    (List.length todo <= fuel)%nat ->
    compressLoop fuel (before ++ todo) quality onProgress
      (Z.of_nat (List.length before) + 1)
      (Z.of_nat (List.length (before ++ todo))) w = (Returned tt, w') ->
    exists imgs, Forall2 (rendersTo quality) todo imgs.
Proof.
  induction todo as [|page todo IH]; intros before fuel w w' Hfuel Hrun.
  - exists []. constructor.
  - destruct fuel as [|fuel]; [cbn [List.length] in Hfuel; lia|].
    cbn [compressLoop] in Hrun.
    assert (E : (Z.of_nat (List.length before) + 1
                 <=? Z.of_nat (List.length (before ++ page :: todo))) = true).
    { apply Z.leb_le. rewrite length_app. cbn [List.length]. lia. }
    rewrite E in Hrun. unfold bind at 1 in Hrun.
    destruct (compressPage (before ++ page :: todo) quality onProgress
                (Z.of_nat (List.length before) + 1)
                (Z.of_nat (List.length (before ++ page :: todo))) w)
      as [[[]|e] w1] eqn:Hturn; [|discriminate].
    destruct (compressPage_returns _ _ _ _ _ _ _ Hturn)
      as (page' & img & _ & Hnth & Hrenders).
    replace (Z.to_nat (Z.of_nat (List.length before) + 1 - 1))
      with (List.length before) in Hnth by lia.
    rewrite nth_error_app2, Nat.sub_diag in Hnth by lia.
    cbn [nth_error] in Hnth. injection Hnth as <-.
    specialize (IH (before ++ [page]) fuel w1 w').
    rewrite <- app_assoc in IH. cbn [app] in IH.
    replace (Z.of_nat (List.length (before ++ [page])) + 1)
      with (Z.of_nat (List.length before) + 1 + 1) in IH
      by (rewrite length_app; cbn [List.length]; lia).
    destruct IH as [imgs Himgs]; [cbn [List.length] in Hfuel; lia | exact Hrun|].
    exists (img :: imgs). now constructor.
Qed.

(** compressPdf returns exactly when the document loads, a 2d context is
    there and every page renders and embeds. *)
Lemma compressPdf_returns_iff (file : File Bytes) (quality : Q)
  (onProgress : bool) :
  (exists bytes,
      fst (compressPdf file quality onProgress initial) = Returned bytes)
  <-> exists pdf imgs,
        getDocument (arrayBuffer file) = Some pdf
        /\ getContext2d = true
        /\ Forall2 (rendersTo quality) pdf imgs.
Proof.
  split.
  - intros [bytes Hrun]. unfold compressPdf in Hrun.
    unfold bind at 1 in Hrun. unfold awaitM in Hrun.
    destruct (getDocument (arrayBuffer file)) as [pdf|]; [|discriminate].
    cbn [await] in Hrun. unfold bind at 1 in Hrun.
    destruct getContext2d; [|discriminate].
    unfold ret at 1 in Hrun. unfold bind at 1 in Hrun.
    destruct (compressLoop (Z.to_nat (Z.of_nat (List.length pdf))) pdf quality
                onProgress 1 (Z.of_nat (List.length pdf)) initial)
      as [[[]|e] w1] eqn:Hloop; [|discriminate].
    destruct (compressLoop_returns quality onProgress pdf []
                (Z.to_nat (Z.of_nat (List.length pdf))) initial w1)
      as [imgs Himgs]; [rewrite Nat2Z.id; apply Nat.le_refl | exact Hloop|].
    exists pdf, imgs. repeat split; assumption.
  - intros (pdf & imgs & Hdoc & Hctx & Hall).
    rewrite (compressPdf_run file quality onProgress pdf imgs Hdoc Hctx Hall).
    eexists. reflexivity.
Qed.

(** C7, amended: when the document loads, a 2d context is there and
    every page renders and embeds, compressPdf returns, and it has called
    the callback once per page with (1,N), (2,N), ..., (N,N) in this
    order; the call (i,N) opens the turn of page i: the i - 1 pages
    before it are done, page i is not yet fetched. *)
Theorem progress_sequence (file : File Bytes) (quality : Q)
  (pdf : list SrcPage) (imgs : list Image) :
  getDocument (arrayBuffer file) = Some pdf ->
  getContext2d = true ->
  Forall2 (rendersTo quality) pdf imgs ->
  (exists bytes,
      fst (compressPdf file quality true initial) = Returned bytes)
  /\ log (snd (compressPdf file quality true initial))
     = loopEvents true quality (Z.of_nat (List.length pdf)) 1 pdf
  /\ reports 0 (log (snd (compressPdf file quality true initial)))
     = map (fun i => (i, Z.of_nat (List.length pdf), i - 1))
         (countFrom 1 (List.length pdf)).
Proof.
  intros Hdoc Hctx Hall.
  rewrite (compressPdf_run file quality true pdf imgs Hdoc Hctx Hall).
  cbn [fst snd log]. split; [eexists; reflexivity|]. split; [reflexivity|].
  rewrite reports_loopEvents. apply map_ext. intros j. f_equal. lia.
Qed.

(** No run over a document with a page calls the callback after the
    page it names: the first call comes when nothing is done. *)
Lemma progress_never_after_page (file : File Bytes) (quality : Q)
  (pdf : list SrcPage) (imgs : list Image) :
  getDocument (arrayBuffer file) = Some pdf ->
  getContext2d = true ->
  Forall2 (rendersTo quality) pdf imgs ->
  pdf <> [] ->
  ~ calledAfterPage (log (snd (compressPdf file quality true initial))).
Proof.
  intros Hdoc Hctx Hall Hne.
  rewrite (compressPdf_run file quality true pdf imgs Hdoc Hctx Hall).
  cbn [snd log]. unfold calledAfterPage. rewrite reports_loopEvents.
  destruct pdf as [|page pdf]; [congruence|].
  cbn [List.length countFrom map]. intros Hforall.
  inversion Hforall as [|r l Hr Hl]; subst. cbn [fst snd] in Hr. lia.
Qed.

(** C8: when the document loads with at least one page, a 2d context is
    there and every page renders and embeds, compressPdf asks for the
    viewport of every page at scale 3/2, hands its own [quality] to every
    [toDataURL] call, and returns the document of one page per source
    page.  Each page is as large as the viewport of its source page at
    that scale, the size given to [addPage] and to [drawImage]: it is
    sized to the viewport, not to the raster, whose whole-pixel size can
    be smaller.  pdf-lib reads exactly these pages back from the result
    when it reads back what it writes. *)
Theorem compressPdf_scale_quality_pages (file : File Bytes) (quality : Q)
  (onProgress : bool) (pdf : list SrcPage) (imgs : list Image) :
  getDocument (arrayBuffer file) = Some pdf ->
  getContext2d = true ->
  Forall2 (rendersTo quality) pdf imgs ->
  pdf <> [] ->
  let run := compressPdf file quality onProgress initial in
  fst run = Returned (serializeToBuffer (compressedPages pdf imgs))
  /\ newPdfDoc (snd run) = compressedPages pdf imgs
  /\ List.length (compressedPages pdf imgs) = List.length pdf
  /\ viewportScales (log (snd run))
     = map (fun i => (i, 3 # 2)) (countFrom 1 (List.length pdf))
  /\ encoderCalls (log (snd run))
     = map (fun _ => ("image/jpeg"%string, quality)) pdf
  /\ renderedSizes (log (snd run))
     = map (fun page => getViewport page (3 # 2)) pdf
  /\ map mediaBox (compressedPages pdf imgs)
     = map (fun page => getViewport page (3 # 2)) pdf
  /\ Forall2 (fun page newPage =>
                exists img,
                  drawn newPage
                  = [mkDrawing img 0%Q 0%Q (fst (getViewport page (3 # 2)))
                       (snd (getViewport page (3 # 2)))])
       pdf (compressedPages pdf imgs)
  /\ ((forall pages : list (NewPage Q Image),
         load (serializeToBuffer pages) = Some pages) ->
      pagesOf (fst run) = Some (compressedPages pdf imgs)).
Proof.
  intros Hdoc Hctx Hall Hne run. subst run.
  rewrite (compressPdf_run file quality onProgress pdf imgs Hdoc Hctx Hall).
  cbn [fst snd log newPdfDoc].
  pose proof (Forall2_length Hall) as Hlen.
  assert (Hcount : List.length (compressedPages pdf imgs) = List.length pdf).
  { unfold compressedPages.
    now rewrite length_map, length_combine, <- Hlen, Nat.min_id. }
  assert (Hpages : compressedPages pdf imgs <> []).
  { intros Hnil. rewrite Hnil in Hcount. destruct pdf; [congruence|].
    discriminate Hcount. }
  rewrite viewportScales_loopEvents, encoderCalls_loopEvents,
    renderedSizes_loopEvents, (compressedPages_mediaBox _ _ Hlen),
    (save_pages _ Hpages).
  repeat split; try assumption.
  - clear - Hall. unfold compressedPages.
    induction Hall as [|page img pdf imgs _ _ IH]; cbn [combine map].
    + constructor.
    + constructor; [now exists img | exact IH].
  - intros Hround. apply Hround.
Qed.
End CompressPdfFacts.

(** * Further properties *)

(** ** splitPdf: what the resolved indices depend on *)

(** Two strictly ascending lists with the same members are the same. *)
Lemma strictly_sorted_same_members (l1 l2 : list Z) :
  StronglySorted Z.lt l1 -> StronglySorted Z.lt l2 ->
  (forall z, In z l1 <-> In z l2) -> l1 = l2.
Proof.
  intros H1. revert l2. induction H1 as [|a l1 Hl1 IH Ha]; intros l2 H2 Hsame.
  - destruct l2 as [|b l2]; [reflexivity|].
    exfalso. apply (proj2 (Hsame b)). now left.
  - destruct H2 as [|b l2 Hl2 Hb].
    + exfalso. apply (proj1 (Hsame a)). now left.
    + rewrite Forall_forall in Ha, Hb.
      assert (a = b).
      { destruct (proj1 (Hsame a) (or_introl eq_refl)) as [E|Hin]; [now symmetry|].
        destruct (proj2 (Hsame b) (or_introl eq_refl)) as [E|Hin']; [exact E|].
        specialize (Ha b Hin'). specialize (Hb a Hin). lia. }
      subst b. f_equal. apply IH; [exact Hl2|].
      intros z. split; intros Hz.
      * destruct (proj1 (Hsame z) (or_intror Hz)) as [E|Hin]; [|exact Hin].
        specialize (Ha z Hz). lia.
      * destruct (proj2 (Hsame z) (or_intror Hz)) as [E|Hin]; [|exact Hin].
        specialize (Hb z Hz). lia.
Qed.

Lemma seq_strictly_sorted (a n : nat) :
  StronglySorted Z.lt (map Z.of_nat (seq a n)).
Proof.
  revert a. induction n as [|n IH]; intros a; simpl.
  - constructor.
  - constructor; [apply IH|].
    rewrite Forall_forall. intros z Hz.
    apply in_map_iff in Hz. destruct Hz as (k & <- & Hk).
    apply in_seq in Hk. lia.
Qed.

Lemma getPageIndices_In {Page : Type} (pdf : list Page) (z : Z) :
  In z (getPageIndices pdf) <-> 0 <= z < getPageCount pdf.
Proof.
  unfold getPageIndices, getPageCount. rewrite in_map_iff. split.
  - intros (k & <- & Hk). apply in_seq in Hk. lia.
  - intros Hz. exists (Z.to_nat z). split; [lia | apply in_seq; lia].
Qed.

(** The indices depend on the pages that the terms select, and on nothing
    else. *)
Lemma indices_same_selection (r1 r2 : jsstring) (t : Z) :
  (forall n,
      (exists part, In part (split comma r1) /\ selects t part n) <->
      (exists part, In part (split comma r2) /\ selects t part n)) ->
  indices r1 t = indices r2 t.
Proof.
  intros Hsame. apply strictly_sorted_same_members; try apply indices_strict.
  intros z. rewrite !indices_In. apply Hsame.
Qed.

(** X1: the order of the terms of a range expression and their repetition
    do not matter: two expressions made of the same terms resolve to the
    same indices. *)
Theorem indices_term_order_irrelevant (r1 r2 : jsstring) (totalPages : Z) :
  (forall part, In part (split comma r1) <-> In part (split comma r2)) ->
  indices r1 totalPages = indices r2 totalPages.
Proof.
  intros Hterms. apply indices_same_selection. intros n.
  split; intros (part & Hin & Hsel); exists part; split;
    try assumption; now apply Hterms.
Qed.

(** No more indices than pages. *)
Lemma indices_length (rangeStr : jsstring) (t : Z) :
  (List.length (indices rangeStr t) <= Z.to_nat t)%nat.
Proof.
  replace (Z.to_nat t)
    with (List.length (map Z.of_nat (seq 0 (Z.to_nat t))))
    by (now rewrite length_map, length_seq).
  apply NoDup_incl_length; [apply indices_NoDup|].
  intros z Hz. pose proof (indices_bounds rangeStr t) as Hb.
  rewrite Forall_forall in Hb. specialize (Hb z Hz).
  apply in_map_iff. exists (Z.to_nat z). split; [lia | apply in_seq; lia].
Qed.

(** ** splitPdf: expressions without a digit *)

Lemma trimStart_Forall (P : Z -> Prop) (s : jsstring) :
  Forall P s -> Forall P (trimStart s).
Proof.
  induction 1 as [|c s Hc Hs IH]; simpl.
  - constructor.
  - destruct (isWhiteSpace c); [exact IH | now constructor].
Qed.

Lemma trim_Forall (P : Z -> Prop) (s : jsstring) :
  Forall P s -> Forall P (trim s).
Proof.
  intros Hs. unfold trim, trimEnd.
  apply Forall_rev, trimStart_Forall, Forall_rev, trimStart_Forall, Hs.
Qed.

Lemma split_Forall (P : Z -> Prop) (sep : Z) (s : jsstring) :
  Forall P s -> Forall (Forall P) (split sep s).
Proof.
  induction 1 as [|c s Hc Hs IH]; simpl.
  - repeat constructor.
  - destruct (c =? sep).
    + constructor; [constructor | exact IH].
    + destruct (split sep s) as [|p ps].
      * repeat constructor. exact Hc.
      * inversion IH; subst. constructor; [now constructor | assumption].
Qed.

(** What [parseInt] does once the sign is read, on a string without a
    decimal digit: there is no [0x] prefix and no digit to read. *)
Lemma parseInt_unsigned_no_digit (sign : Z) (u : jsstring) :
  Forall (fun c => ~ 48 <= c <= 57) u ->
  (let '(R, numeral) :=
     match u with
     | 48 :: x :: rest =>
         if (x =? 120) || (x =? 88) then (16, rest) else (10, u)
     | _ => (10, u)
     end in
   match radixDigits R numeral with
   | [] => None
   | ds => Some (sign * digitsValue R ds)
   end) = None.
Proof.
  intros Hu. destruct u as [|c l]; [reflexivity|].
  inversion Hu as [|? ? Hc Hl]; subst.
  assert (Hrd : radixDigits 10 (c :: l) = []).
  { simpl. destruct (digitValue c) as [d|] eqn:E; [|reflexivity].
    apply (digitValue_not_decimal _ _ Hc) in E.
    destruct (d <? 10) eqn:L; [apply Z.ltb_lt in L; lia | reflexivity]. }
  destruct c as [|p|p]; try (cbv beta iota zeta; now rewrite Hrd).
  repeat match goal with
         | q : positive |- _ =>
             destruct q; try (cbv beta iota zeta; now rewrite Hrd)
         end.
  exfalso. apply Hc. lia.
Qed.

Lemma parseInt_no_digit (s : jsstring) :
  Forall (fun c => ~ 48 <= c <= 57) s -> parseInt s = None.
Proof.
  intros Hs. unfold parseInt.
  pose proof (trimStart_Forall _ _ Hs) as Ht.
  destruct (trimStart s) as [|c rest].
  - reflexivity.
  - inversion Ht as [|? ? Hc Hrest]; subst.
    destruct (c =? 45); [exact (parseInt_unsigned_no_digit (-1) rest Hrest)|].
    destruct (c =? 43); [exact (parseInt_unsigned_no_digit 1 rest Hrest)|].
    exact (parseInt_unsigned_no_digit 1 (c :: rest) Ht).
Qed.

Lemma forEachPart_no_digit (t : Z) (s : list Z) (part : jsstring) :
  Forall (fun c => ~ 48 <= c <= 57) part -> forEachPart t s part = s.
Proof.
  intros Hpart. unfold forEachPart. destruct (includes hyphen part).
  - unfold rangeEnds.
    pose proof (split_Forall _ hyphen _ Hpart) as Hpieces.
    destruct (split hyphen part) as [|p0 ps]; [reflexivity|].
    inversion Hpieces as [|? ? Hp0 _]; subst.
    cbn [map]. now rewrite (parseInt_no_digit _ (trim_Forall _ _ Hp0)).
  - now rewrite (parseInt_no_digit _ (trim_Forall _ _ Hpart)).
Qed.

Lemma indices_no_digit (rangeStr : jsstring) (t : Z) :
  Forall (fun c => ~ 48 <= c <= 57) rangeStr -> indices rangeStr t = [].
Proof.
  intros Hs. unfold indices, pagesToKeep.
  pose proof (split_Forall _ comma _ Hs) as Hparts.
  assert (Hfold : forall s, fold_left (forEachPart t) (split comma rangeStr) s = s).
  { induction Hparts as [|part parts Hpart _ IH]; intros s; simpl.
    - reflexivity.
    - now rewrite (forEachPart_no_digit _ _ _ Hpart). }
  now rewrite Hfold.
Qed.

Section SplitFurther.
Context {Bytes Page : Type} `{PdfLib Bytes Page}.

(** X2: a range expression without any decimal digit selects nothing:
    whenever the source loads, splitPdf throws "Invalid page range". *)
Theorem splitPdf_no_digit_rejected (file : File Bytes) (rangeStr : jsstring)
  (srcPdf : list Page) :
  load (arrayBuffer file) = Some srcPdf ->
  Forall (fun c => ~ 48 <= c <= 57) rangeStr ->
  splitPdf file rangeStr = Thrown (Error "Invalid page range").
Proof.
  intros Hload Hs. rewrite (splitPdf_loaded _ _ _ Hload).
  now rewrite (indices_no_digit _ _ Hs).
Qed.

(** X3: when the terms of an expression whose numbers are safe integers
    select every page of the source between them, splitPdf returns the
    whole document, its pages in their original order, however the terms
    are written or ordered. *)
Theorem splitPdf_whole_document (file : File Bytes) (rangeStr : jsstring)
  (srcPdf : list Page) :
  load (arrayBuffer file) = Some srcPdf ->
  safeRange rangeStr ->
  srcPdf <> [] ->
  (forall n, 1 <= n <= getPageCount srcPdf ->
             exists part, In part (split comma rangeStr)
                          /\ selects (getPageCount srcPdf) part n) ->
  indices rangeStr (getPageCount srcPdf) = getPageIndices srcPdf
  /\ splitPdf file rangeStr = Returned (serializeToBuffer srcPdf).
Proof.
  intros Hload _ Hne Hall. rewrite <- (save_pages _ Hne).
  assert (Hidx : indices rangeStr (getPageCount srcPdf) = getPageIndices srcPdf).
  { apply strictly_sorted_same_members.
    - apply indices_strict.
    - apply seq_strictly_sorted.
    - intros z. rewrite getPageIndices_In. split.
      + intros Hz. pose proof (indices_bounds rangeStr (getPageCount srcPdf)) as Hb.
        rewrite Forall_forall in Hb. now apply Hb.
      + intros Hz. apply indices_In. apply Hall. lia. }
  split; [exact Hidx|].
  rewrite (splitPdf_loaded _ _ _ Hload), Hidx.
  destruct (getPageIndices srcPdf) as [|i idx] eqn:E.
  - destruct srcPdf; [congruence | discriminate E].
  - now rewrite <- E, copyPages_all.
Qed.

(** X4: a document that splitPdf returns has at least one page and no
    more pages than the source, and each of its pages is a page of the
    source. *)
Theorem splitPdf_page_count (file : File Bytes) (rangeStr : jsstring)
  (srcPdf : list Page) (bytes : Bytes) :
  load (arrayBuffer file) = Some srcPdf ->
  splitPdf file rangeStr = Returned bytes ->
  exists pages,
    bytes = save pages
    /\ (1 <= List.length pages <= List.length srcPdf)%nat
    /\ Forall (fun page => In page srcPdf) pages.
Proof.
  intros Hload Hret.
  assert (Hne : indices rangeStr (getPageCount srcPdf) <> []).
  { intros Hnil. rewrite (splitPdf_loaded _ _ _ Hload), Hnil in Hret.
    discriminate. }
  destruct (splitPdf_pages file rangeStr srcPdf Hload Hne)
    as (pages & Hpages & Hall).
  exists pages. split; [congruence|].
  pose proof (Forall2_length Hall) as Hlen.
  pose proof (indices_length rangeStr (getPageCount srcPdf)) as Hbound.
  assert (Hcount : Z.to_nat (getPageCount srcPdf) = List.length srcPdf)
    by apply Nat2Z.id.
  rewrite Hcount in Hbound.
  split.
  - destruct (indices rangeStr (getPageCount srcPdf)); [congruence|].
    simpl in Hlen, Hbound. lia.
  - clear - Hall. induction Hall as [|i p idx pages Hp _ IH]; constructor.
    + unfold pageAt in Hp. destruct (i <? 0); [discriminate|].
      eapply nth_error_In, Hp.
    + exact IH.
Qed.

(** X5: a source without pages is rejected whatever the expression is,
    among those whose numbers are safe integers. *)
Theorem splitPdf_empty_source (file : File Bytes) (rangeStr : jsstring) :
  load (arrayBuffer file) = Some [] ->
  safeRange rangeStr ->
  splitPdf file rangeStr = Thrown (Error "Invalid page range").
Proof.
  intros Hload _. rewrite (splitPdf_loaded _ _ _ Hload).
  pose proof (indices_length rangeStr (getPageCount (@nil Page))) as Hlen.
  destruct (indices rangeStr (getPageCount (@nil Page))); [reflexivity|].
  simpl in Hlen. lia.
Qed.
End SplitFurther.

(** ** mergePdfs: failures and composition *)

Section MergeFurther.
Context {Bytes Page : Type} `{PdfLib Bytes Page}.

Lemma mergeLoop_returns (files : list (File Bytes)) :
  forall mergedPdf result,
    mergeLoop files mergedPdf = Returned result ->
    exists pdfs,
      Forall2 (fun file pdf => load (arrayBuffer file) = Some pdf) files pdfs
      /\ result = mergedPdf ++ concat pdfs.
Proof.
  induction files as [|file files IH]; intros mergedPdf result Hrun.
  - exists []. split; [constructor|]. simpl in *. rewrite app_nil_r. congruence.
  - cbn [mergeLoop] in Hrun.
    destruct (load (arrayBuffer file)) as [pdf|] eqn:Hload; [|discriminate].
    cbn [await obind] in Hrun. rewrite copyPages_all in Hrun.
    cbn [await obind] in Hrun. rewrite fold_addPage in Hrun.
    destruct (IH _ _ Hrun) as (pdfs & Hall & ->).
    exists (pdf :: pdfs). split; [now constructor|].
    simpl. now rewrite app_assoc.
Qed.

Lemma mergeLoop_throws (files : list (File Bytes)) :
  forall mergedPdf e,
    mergeLoop files mergedPdf = Thrown e ->
    e = LibraryError
    /\ Exists (fun file => load (arrayBuffer file) = None) files.
Proof.
  induction files as [|file files IH]; intros mergedPdf e Hrun.
  - discriminate.
  - cbn [mergeLoop] in Hrun.
    destruct (load (arrayBuffer file)) as [pdf|] eqn:Hload.
    + cbn [await obind] in Hrun. rewrite copyPages_all in Hrun.
      cbn [await obind] in Hrun.
      destruct (IH _ _ Hrun) as [-> Hex]. split; [reflexivity|].
      now apply Exists_cons_tl.
    + cbn [await obind] in Hrun. split; [congruence|].
      now apply Exists_cons_hd.
Qed.

Lemma mergePdfs_returns (files : list (File Bytes)) (bytes : Bytes) :
  mergePdfs files = Returned bytes ->
  exists pdfs,
    Forall2 (fun file pdf => load (arrayBuffer file) = Some pdf) files pdfs
    /\ bytes = save (concat pdfs).
Proof.
  unfold mergePdfs. intros Hrun.
  destruct (mergeLoop files create) as [result|e] eqn:Hloop; [|discriminate].
  destruct (mergeLoop_returns _ _ _ Hloop) as (pdfs & Hall & ->).
  exists pdfs. split; [exact Hall|]. cbn [obind] in Hrun. now injection Hrun as <-.
Qed.

(** X6: mergePdfs is all or nothing: it throws exactly when one of the
    inputs does not load, with pdf-lib's error, whatever the other inputs
    are; no partial document is returned. *)
Theorem mergePdfs_all_or_nothing (files : list (File Bytes)) :
  (mergePdfs files = Thrown LibraryError <->
   Exists (fun file => load (arrayBuffer file) = None) files)
  /\ (forall e, mergePdfs files = Thrown e -> e = LibraryError)
  /\ ((exists bytes, mergePdfs files = Returned bytes) <->
      Forall (fun file => load (arrayBuffer file) <> None) files).
Proof.
  assert (Hthrows : forall e, mergePdfs files = Thrown e ->
                              e = LibraryError
                              /\ Exists (fun file => load (arrayBuffer file) = None)
                                   files).
  { intros e. unfold mergePdfs.
    destruct (mergeLoop files create) as [result|e'] eqn:Hloop; [discriminate|].
    cbn [obind]. intros [= <-]. exact (mergeLoop_throws _ _ _ Hloop). }
  assert (Hfails : Exists (fun file => load (arrayBuffer file) = None) files ->
                   mergePdfs files = Thrown LibraryError).
  { intros Hex. destruct (mergePdfs files) as [bytes|e] eqn:Hrun.
    - exfalso. destruct (mergePdfs_returns _ _ Hrun) as (pdfs & Hall & _).
      clear - Hall Hex. induction Hall as [|file pdf files pdfs Hload _ IH].
      + inversion Hex.
      + inversion Hex; subst; [congruence | now apply IH].
    - now destruct (Hthrows e eq_refl) as [-> _]. }
  split; [split; [intros Hrun; now apply (Hthrows LibraryError) | exact Hfails]|].
  split; [intros e Hrun; now apply (Hthrows e)|].
  split.
  - intros [bytes Hrun]. destruct (mergePdfs_returns _ _ Hrun) as (pdfs & Hall & _).
    clear - Hall. induction Hall; constructor; [congruence | assumption].
  - intros Hall. destruct (mergePdfs files) as [bytes|e] eqn:Hrun.
    + now exists bytes.
    + exfalso. destruct (Hthrows e eq_refl) as [_ Hex].
      rewrite Forall_forall in Hall. apply Exists_exists in Hex.
      destruct Hex as (file & Hin & Hnone). now apply (Hall file Hin).
Qed.

(** X7: merging is associative on the pages, when pdf-lib reads back the
    pages it writes: for two lists of inputs that each hold a page,
    merging the results of the two merges and merging all the inputs in
    one call give documents of the same pages, the pages of the inputs in
    order. *)
Theorem mergePdfs_associative (files1 files2 : list (File Bytes))
  (pdfs1 pdfs2 : list (list Page)) (bytes1 bytes2 : Bytes)
  (type1 type2 : string) :
  (forall pages : list Page, load (serializeToBuffer pages) = Some pages) ->
  Forall2 (fun file pdf => load (arrayBuffer file) = Some pdf) files1 pdfs1 ->
  Forall2 (fun file pdf => load (arrayBuffer file) = Some pdf) files2 pdfs2 ->
  concat pdfs1 <> [] ->
  concat pdfs2 <> [] ->
  mergePdfs files1 = Returned bytes1 ->
  mergePdfs files2 = Returned bytes2 ->
  pagesOf (mergePdfs [mkFile type1 bytes1; mkFile type2 bytes2])
  = Some (concat pdfs1 ++ concat pdfs2)
  /\ pagesOf (mergePdfs (files1 ++ files2))
     = Some (concat pdfs1 ++ concat pdfs2).
Proof.
  intros Hround Hall1 Hall2 Hne1 Hne2 Hrun1 Hrun2.
  unfold mergePdfs in Hrun1, Hrun2.
  rewrite (mergeLoop_concat _ _ _ Hall1) in Hrun1.
  rewrite (mergeLoop_concat _ _ _ Hall2) in Hrun2.
  cbn [obind create app] in Hrun1, Hrun2.
  rewrite (save_pages _ Hne1) in Hrun1. rewrite (save_pages _ Hne2) in Hrun2.
  injection Hrun1 as <-. injection Hrun2 as <-.
  assert (Hne : concat pdfs1 ++ concat pdfs2 <> []).
  { intros Hnil. apply app_eq_nil in Hnil. now destruct Hnil. }
  split; unfold mergePdfs.
  - rewrite (mergeLoop_concat _ [concat pdfs1; concat pdfs2])
      by (repeat constructor; cbn [arrayBuffer]; apply Hround).
    cbn [concat obind create app]. rewrite app_nil_r.
    rewrite (save_pages _ Hne). apply Hround.
  - rewrite (mergeLoop_concat (files1 ++ files2) (pdfs1 ++ pdfs2))
      by now apply Forall2_app.
    cbn [obind create app]. rewrite concat_app, (save_pages _ Hne).
    apply Hround.
Qed.

Lemma copyPages_app (srcPdf : list Page) (idx1 idx2 : list Z)
  (pages1 pages2 : list Page) :
  copyPages srcPdf idx1 = Some pages1 ->
  copyPages srcPdf idx2 = Some pages2 ->
  copyPages srcPdf (idx1 ++ idx2) = Some (pages1 ++ pages2).
Proof.
  revert pages1. induction idx1 as [|i idx1 IH]; intros pages1 H1 H2.
  - injection H1 as <-. exact H2.
  - cbn [copyPages app] in *.
    destruct (pageAt srcPdf i) as [p|]; [|discriminate].
    destruct (copyPages srcPdf idx1) as [ps|]; [|discriminate].
    injection H1 as <-. now rewrite (IH ps eq_refl H2).
Qed.

Lemma splitPdf_returns (file : File Bytes) (rangeStr : jsstring)
  (srcPdf : list Page) (bytes : Bytes) :
  load (arrayBuffer file) = Some srcPdf ->
  splitPdf file rangeStr = Returned bytes ->
  exists pages,
    copyPages srcPdf (indices rangeStr (getPageCount srcPdf)) = Some pages
    /\ bytes = save pages.
Proof.
  intros Hload. rewrite (splitPdf_loaded _ _ _ Hload).
  destruct (indices rangeStr (getPageCount srcPdf)) as [|i idx]; [discriminate|].
  destruct (copyPages srcPdf (i :: idx)) as [pages|]; [|discriminate].
  cbn [await obind]. intros [= <-]. now exists pages.
Qed.

(** X8: split, then merge: when pdf-lib reads back the pages it writes
    and two range expressions resolve to index lists that, one after the
    other, run through all the pages of the source, merging the two
    documents that splitPdf returns for them gives a document of the
    source's pages, in their order. *)
Theorem split_then_merge (file : File Bytes) (range1 range2 : jsstring)
  (srcPdf : list Page) (bytes1 bytes2 : Bytes) (type1 type2 : string) :
  (forall pages : list Page, load (serializeToBuffer pages) = Some pages) ->
  load (arrayBuffer file) = Some srcPdf ->
  indices range1 (getPageCount srcPdf) ++ indices range2 (getPageCount srcPdf)
  = getPageIndices srcPdf ->
  splitPdf file range1 = Returned bytes1 ->
  splitPdf file range2 = Returned bytes2 ->
  pagesOf (mergePdfs [mkFile type1 bytes1; mkFile type2 bytes2])
  = Some srcPdf.
Proof.
  intros Hround Hload Hcover Hrun1 Hrun2.
  destruct (splitPdf_returns _ _ _ _ Hload Hrun1) as (pages1 & Hcopy1 & ->).
  destruct (splitPdf_returns _ _ _ _ Hload Hrun2) as (pages2 & Hcopy2 & ->).
  assert (Hne1 : pages1 <> []).
  { intros ->. rewrite (splitPdf_loaded _ _ _ Hload) in Hrun1.
    destruct (indices range1 (getPageCount srcPdf)) as [|i idx];
      [discriminate Hrun1|].
    cbn [copyPages] in Hcopy1. destruct (pageAt srcPdf i); [|discriminate].
    destruct (copyPages srcPdf idx); discriminate. }
  assert (Hne2 : pages2 <> []).
  { intros ->. rewrite (splitPdf_loaded _ _ _ Hload) in Hrun2.
    destruct (indices range2 (getPageCount srcPdf)) as [|i idx];
      [discriminate Hrun2|].
    cbn [copyPages] in Hcopy2. destruct (pageAt srcPdf i); [|discriminate].
    destruct (copyPages srcPdf idx); discriminate. }
  pose proof (copyPages_app _ _ _ _ _ Hcopy1 Hcopy2) as Hcopy.
  rewrite Hcover, copyPages_all in Hcopy. injection Hcopy as Hpages.
  assert (Hne : pages1 ++ pages2 <> []).
  { intros Hnil. apply app_eq_nil in Hnil. now destruct Hnil. }
  unfold mergePdfs. rewrite (mergeLoop_concat _ [pages1; pages2]).
  - cbn [concat obind create app]. rewrite app_nil_r, (save_pages _ Hne).
    rewrite <- Hpages. apply Hround.
  - repeat constructor; cbn [arrayBuffer];
      rewrite save_pages by assumption; apply Hround.
Qed.
End MergeFurther.

(** ** imagesToPdf: failures and composition *)

Section ImagesFurther.
Context {Bytes Image : Type}.
Context `{ImageEmbedder Bytes Image} `{PdfLib Bytes (NewPage Z Image)}.

Lemma embedByType_fails (image : File Bytes) :
  embedByType image = Some None <-> undecodable image.
Proof.
  unfold embedByType, undecodable.
  destruct (String.eqb_spec (type image) "image/jpeg") as [Ejpeg|Njpeg];
    [|destruct (String.eqb_spec (type image) "image/jpg") as [Ejpg|Njpg];
      [|destruct (String.eqb_spec (type image) "image/png") as [Epng|Npng]]];
    cbn [orb].
  - split.
    + intros [= Hnone]. left. split; [now left | exact Hnone].
    + intros [[_ Hnone] | [Hpng _]]; [now rewrite Hnone | congruence].
  - split.
    + intros [= Hnone]. left. split; [now right | exact Hnone].
    + intros [[_ Hnone] | [Hpng _]]; [now rewrite Hnone | congruence].
  - split.
    + intros [= Hnone]. right. split; [exact Epng | exact Hnone].
    + intros [[[Hjpeg | Hjpg] _] | [_ Hnone]];
        [congruence | congruence | now rewrite Hnone].
  - split.
    + discriminate.
    + intros [[[Hjpeg | Hjpg] _] | [Hpng _]]; congruence.
Qed.

Lemma imagesLoop_throws (images : list (File Bytes)) :
  forall pdfDoc e,
    imagesLoop images pdfDoc = Thrown e ->
    e = LibraryError
    /\ Exists (fun image => embedByType image = Some None) images.
Proof.
  induction images as [|image rest IH]; intros pdfDoc e Hrun.
  - discriminate.
  - cbn [imagesLoop] in Hrun.
    destruct (embedByType image) as [[pdfImage|]|] eqn:E.
    + cbn [await obind] in Hrun. destruct (scale pdfImage 1) as [w h].
      destruct (IH _ _ Hrun) as [-> Hex]. split; [reflexivity|].
      now apply Exists_cons_tl.
    + cbn [await obind] in Hrun. split; [congruence|].
      now apply Exists_cons_hd.
    + destruct (IH _ _ Hrun) as [-> Hex]. split; [reflexivity|].
      now apply Exists_cons_tl.
Qed.

(** X9: imagesToPdf throws exactly when some image of an accepted type
    does not decode, and then with pdf-lib's error; an image of another
    type never makes it throw, it is only passed over: with no image of
    an accepted type the call returns the document of one page, the
    blank page that [save] adds. *)
Theorem imagesToPdf_throws_iff (images : list (File Bytes)) :
  (imagesToPdf images = Thrown LibraryError <-> Exists undecodable images)
  /\ (forall e, imagesToPdf images = Thrown e -> e = LibraryError)
  /\ ((forall image, In image images -> acceptedType image = false) ->
      imagesToPdf images = Returned (serializeToBuffer [defaultPage])).
Proof.
  assert (Hthrows : forall e, imagesToPdf images = Thrown e ->
                              e = LibraryError /\ Exists undecodable images).
  { intros e. unfold imagesToPdf.
    destruct (imagesLoop images create) as [doc|e'] eqn:Hloop; [discriminate|].
    cbn [obind]. intros [= <-].
    destruct (imagesLoop_throws _ _ _ Hloop) as [-> Hex]. split; [reflexivity|].
    eapply Exists_impl; [|exact Hex]. intros image. apply embedByType_fails. }
  split; [split|split].
  - intros Hrun. now apply (Hthrows LibraryError).
  - intros Hex. unfold imagesToPdf. rewrite imagesLoop_decode_failure.
    + reflexivity.
    + eapply Exists_impl; [|exact Hex]. intros image. apply embedByType_fails.
  - intros e Hrun. now apply (Hthrows e).
  - intros Hnone. unfold imagesToPdf.
    rewrite (imagesLoop_pages images [] create); [reflexivity|].
    replace (filter acceptedType images) with (@nil (File Bytes));
      [constructor|].
    symmetry. clear - Hnone. induction images as [|image rest IH].
    + reflexivity.
    + simpl. rewrite (Hnone image (or_introl eq_refl)).
      apply IH. intros im Him. apply Hnone. now right.
Qed.

Lemma imagesLoop_from (images : list (File Bytes)) :
  forall pdfDoc,
    imagesLoop images pdfDoc
    = obind (imagesLoop images []) (fun pages => Returned (pdfDoc ++ pages)).
Proof.
  induction images as [|image rest IH]; intros pdfDoc.
  - simpl. now rewrite app_nil_r.
  - cbn [imagesLoop]. destruct (embedByType image) as [[pdfImage|]|].
    + cbn [await obind]. destruct (scale pdfImage 1) as [w h].
      rewrite (IH (addPage pdfDoc _)), (IH (addPage [] _)).
      destruct (imagesLoop rest []) as [pages|e]; [|reflexivity].
      cbn [obind]. unfold addPage. cbn [app]. now rewrite <- app_assoc.
    + reflexivity.
    + apply IH.
Qed.

Lemma imagesLoop_app (images1 images2 : list (File Bytes)) :
  forall pdfDoc,
    imagesLoop (images1 ++ images2) pdfDoc
    = obind (imagesLoop images1 pdfDoc) (imagesLoop images2).
Proof.
  induction images1 as [|image rest IH]; intros pdfDoc.
  - reflexivity.
  - cbn [app imagesLoop]. destruct (embedByType image) as [[pdfImage|]|].
    + cbn [await obind]. destruct (scale pdfImage 1) as [w h]. apply IH.
    + reflexivity.
    + apply IH.
Qed.

(** X10: converting two batches of images, each with an image of an
    accepted type, and merging the two results gives a document of the
    same pages as converting all the images in one call: a page per
    accepted image, in order; this when pdf-lib reads back the pages it
    writes. *)
Theorem images_then_merge (images1 images2 : list (File Bytes))
  (embedded1 embedded2 : list Image) (bytes1 bytes2 : Bytes)
  (type1 type2 : string) :
  (forall pages : list (NewPage Z Image),
      load (serializeToBuffer pages) = Some pages) ->
  Forall2 (fun image pdfImage => embedByType image = Some (Some pdfImage))
    (filter acceptedType images1) embedded1 ->
  Forall2 (fun image pdfImage => embedByType image = Some (Some pdfImage))
    (filter acceptedType images2) embedded2 ->
  embedded1 <> [] ->
  embedded2 <> [] ->
  imagesToPdf images1 = Returned bytes1 ->
  imagesToPdf images2 = Returned bytes2 ->
  pagesOf (mergePdfs [mkFile type1 bytes1; mkFile type2 bytes2])
  = Some (map imagePage (embedded1 ++ embedded2))
  /\ pagesOf (imagesToPdf (images1 ++ images2))
     = Some (map imagePage (embedded1 ++ embedded2)).
Proof.
  intros Hround Hall1 Hall2 Hne1 Hne2 Hrun1 Hrun2.
  assert (Hmap : forall l : list Image, l <> [] -> map imagePage l <> []).
  { intros [|img l]; [congruence | discriminate]. }
  unfold imagesToPdf in Hrun1, Hrun2.
  rewrite (imagesLoop_pages _ _ _ Hall1) in Hrun1.
  rewrite (imagesLoop_pages _ _ _ Hall2) in Hrun2.
  cbn [obind create app] in Hrun1, Hrun2.
  rewrite (save_pages _ (Hmap _ Hne1)) in Hrun1.
  rewrite (save_pages _ (Hmap _ Hne2)) in Hrun2.
  injection Hrun1 as <-. injection Hrun2 as <-.
  assert (Hne : map imagePage (embedded1 ++ embedded2) <> []).
  { apply Hmap. intros Hnil. apply app_eq_nil in Hnil. now destruct Hnil. }
  split.
  - unfold mergePdfs.
    rewrite (mergeLoop_concat _
               [map imagePage embedded1; map imagePage embedded2])
      by (repeat constructor; cbn [arrayBuffer]; apply Hround).
    cbn [concat obind create app]. rewrite app_nil_r, <- map_app.
    rewrite (save_pages _ Hne). apply Hround.
  - unfold imagesToPdf.
    rewrite (imagesLoop_pages (images1 ++ images2) (embedded1 ++ embedded2))
      by (rewrite filter_app; now apply Forall2_app).
    cbn [obind create app]. rewrite (save_pages _ Hne). apply Hround.
Qed.
End ImagesFurther.

(** ** compressPdf: failures *)

Section CompressFurther.
Context {Bytes SrcPage Raster Image : Type}.
Context `{PdfJs Bytes SrcPage Raster} `{Dom Bytes Raster}.
Context `{ImageEmbedder Bytes Image} `{PdfLib Bytes (NewPage Q Image)}.

Lemma bind_emit {A} (e : event) (k : unit -> @M Image A) (w : @world Image) :
  bind (emit e) k w
  = k tt (mkWorld (log w ++ [e]) (canvas w) (newPdfDoc w)).
Proof. reflexivity. Qed.

Lemma bind_ret {A B} (a : A) (k : A -> @M Image B) (w : @world Image) :
  bind (ret a) k w = k a w.
Proof. reflexivity. Qed.

Lemma bind_bind {A B C} (m : @M Image A) (f : A -> @M Image B)
  (k : B -> @M Image C) (w : @world Image) :
  bind (bind m f) k w = bind m (fun a => bind (f a) k) w.
Proof. unfold bind. destruct (m w) as [[a|e] w']; reflexivity. Qed.

Lemma bind_awaitM {A B} (r : option A) (k : A -> @M Image B) (w : @world Image) :
  bind (awaitM r) k w
  = match r with
    | Some a => k a w
    | None => (Thrown LibraryError, w)
    end.
Proof. destruct r; reflexivity. Qed.

(** One turn, case by case: the page is missing, it does not render, its
    JPEG does not embed, or the turn goes through. *)
Lemma compressPage_eq (pdf : list SrcPage) (quality : Q) (onProgress : bool)
  (i numPages : Z) (w : world) :
  compressPage pdf quality onProgress i numPages w =
  match (if i <? 1 then None else nth_error pdf (Z.to_nat (i - 1))) with
  | None =>
      (Thrown LibraryError,
       mkWorld (log w ++ turnPrefix onProgress i numPages) (canvas w) (newPdfDoc w))
  | Some page =>
      match render page (viewportOf page) (viewportOf page) with
      | None =>
          (Thrown LibraryError,
           mkWorld (log w ++ turnPrefix onProgress i numPages
                    ++ [getViewport_call i (3 # 2);
                        canvas_resize (fst (viewportOf page)) (snd (viewportOf page));
                        render_call i (viewportOf page)])
             (viewportOf page) (newPdfDoc w))
      | Some pixels =>
          match embedJpg (toDataURL pixels "image/jpeg" quality) with
          | None =>
              (Thrown LibraryError,
               mkWorld (log w ++ turnPrefix onProgress i numPages
                        ++ [getViewport_call i (3 # 2);
                            canvas_resize (fst (viewportOf page))
                              (snd (viewportOf page));
                            render_call i (viewportOf page);
                            toDataURL_call "image/jpeg" quality;
                            embedJpg_call])
                 (viewportOf page) (newPdfDoc w))
          | Some img =>
              (Returned tt,
               mkWorld (log w ++ pageEvents onProgress quality numPages i page)
                 (viewportOf page) (newPdfDoc w ++ [compressedPage page img]))
          end
      end
  end.
Proof.
  unfold compressPage.
  assert (Hfirst : forall (k : unit -> @M Image unit),
             bind (if onProgress then emit (onProgress_call i numPages) else ret tt)
               k w
             = k tt (mkWorld (log w ++ (if onProgress
                                        then [onProgress_call i numPages] else []))
                       (canvas w) (newPdfDoc w))).
  { intros k. destruct onProgress; [apply bind_emit|].
    rewrite bind_ret. destruct w as [l c d]. cbn [log canvas newPdfDoc].
    now rewrite app_nil_r. }
  rewrite Hfirst. unfold getPageM. rewrite bind_bind, bind_emit, bind_awaitM.
  cbn [log canvas newPdfDoc]. unfold turnPrefix.
  destruct (if i <? 1 then None else nth_error pdf (Z.to_nat (i - 1))) as [page|].
  2:{ now rewrite <- !app_assoc. }
  unfold getViewportM. rewrite bind_bind, bind_emit, bind_ret.
  unfold resizeCanvas. rewrite bind_bind, bind_emit.
  unfold bind at 1. cbn [log canvas newPdfDoc].
  unfold renderM. rewrite bind_bind, bind_emit. unfold bind at 1.
  cbn [log canvas newPdfDoc]. fold (viewportOf page).
  rewrite <- surjective_pairing.
  destruct (render page (viewportOf page) (viewportOf page)) as [pixels|].
  2:{ cbn [await]. now rewrite <- !app_assoc. }
  cbn [await]. unfold toDataURLM. rewrite bind_bind, bind_emit, bind_ret.
  unfold embedJpgM. rewrite bind_bind, bind_emit, bind_awaitM.
  cbn [log canvas newPdfDoc].
  destruct (embedJpg (toDataURL pixels "image/jpeg" quality)) as [img|].
  2:{ now rewrite <- !app_assoc. }
  unfold addPageM. rewrite bind_bind, bind_emit. unfold bind at 1.
  cbn [log canvas newPdfDoc].
  unfold drawImageM. rewrite bind_bind, bind_emit. unfold bind at 1.
  cbn [log canvas newPdfDoc x y width height].
  unfold emit. cbn [log canvas newPdfDoc].
  unfold addPage. rewrite rev_app_distr. cbn [rev app]. rewrite rev_involutive.
  unfold pageEvents, compressedPage, drawImage. cbn [mediaBox drawn app].
  rewrite <- (surjective_pairing (viewportOf page)).
  now rewrite <- !app_assoc.
Qed.

Lemma progressCalls_app (l1 l2 : list event) :
  progressCalls (l1 ++ l2) = progressCalls l1 ++ progressCalls l2.
Proof. apply flat_map_app. Qed.

Lemma progressCalls_turnPrefix (onProgress : bool) (i numPages : Z) :
  progressCalls (turnPrefix onProgress i numPages)
  = if onProgress then [(i, numPages)] else [].
Proof. now destruct onProgress. Qed.

Lemma progressCalls_pageEvents (onProgress : bool) (quality : Q)
  (numPages i : Z) (page : SrcPage) :
  progressCalls (pageEvents onProgress quality numPages i page)
  = if onProgress then [(i, numPages)] else [].
Proof. now destruct onProgress. Qed.

(** The progress calls of a turn: one, made first, when a callback was
    passed; whether the turn goes through or not. *)
Lemma compressPage_progress (pdf : list SrcPage) (quality : Q)
  (onProgress : bool) (i numPages : Z) (w : world) :
  progressCalls (log (snd (compressPage pdf quality onProgress i numPages w)))
  = progressCalls (log w) ++ (if onProgress then [(i, numPages)] else []).
Proof.
  rewrite compressPage_eq.
  destruct (if i <? 1 then None else nth_error pdf (Z.to_nat (i - 1)))
    as [page|].
  - destruct (render page (viewportOf page) (viewportOf page)) as [pixels|].
    + destruct (embedJpg (toDataURL pixels "image/jpeg" quality)) as [img|];
        cbn [snd log].
      * now rewrite progressCalls_app, progressCalls_pageEvents.
      * rewrite !progressCalls_app, progressCalls_turnPrefix.
        cbn. now rewrite app_nil_r.
    + cbn [snd log]. rewrite !progressCalls_app, progressCalls_turnPrefix.
      cbn. now rewrite app_nil_r.
  - cbn [snd log]. now rewrite progressCalls_app, progressCalls_turnPrefix.
Qed.

(** X12: compressPdf gives up before it touches a page when the bytes do
    not load (pdf.js's error) or when the canvas gives no 2d context
    ("Could not create canvas context"): nothing is fetched, drawn or
    reported, and no document is built. *)
Theorem compressPdf_early_failure (file : File Bytes) (quality : Q)
  (onProgress : bool) :
  (getDocument (arrayBuffer file) = None ->
   compressPdf file quality onProgress initial = (Thrown LibraryError, initial))
  /\ (forall pdf,
        getDocument (arrayBuffer file) = Some pdf ->
        getContext2d = false ->
        compressPdf file quality onProgress initial
        = (Thrown (Error "Could not create canvas context"), initial)).
Proof.
  split.
  - intros Hdoc. unfold compressPdf. now rewrite bind_awaitM, Hdoc.
  - intros pdf Hdoc Hctx. unfold compressPdf. rewrite bind_awaitM, Hdoc.
    unfold bind at 1. now rewrite Hctx.
Qed.

(** The loop up to a page that does not go through: the pages before it
    are built, the callback has been called for them and for the failing
    page, and the loop throws. *)
Lemma compressLoop_fails (quality : Q) (onProgress : bool)
  (page : SrcPage) (after : list SrcPage)
  (done : list SrcPage) (imgs : list Image) :
  (forall img, ~ rendersTo quality page img) ->
  Forall2 (rendersTo quality) done imgs ->
  forall (before : list SrcPage) (fuel : nat) (w : world),
    (List.length done < fuel)%nat ->
    let pdf := before ++ done ++ page :: after in
    let run := compressLoop fuel pdf quality onProgress
                 (Z.of_nat (List.length before) + 1)
                 (Z.of_nat (List.length pdf)) w in
    fst run = Thrown LibraryError
    /\ newPdfDoc (snd run) = newPdfDoc w ++ compressedPages done imgs
    /\ progressCalls (log (snd run))
       = progressCalls (log w)
         ++ (if onProgress
             then map (fun i => (i, Z.of_nat (List.length pdf)))
                    (countFrom (Z.of_nat (List.length before) + 1)
                       (S (List.length done)))
             else []).
Proof.
  intros Hbad. induction 1 as [|p img done imgs Hp Hall IH];
    intros before fuel w Hfuel pdf run; subst run pdf.
  - destruct fuel as [|fuel]; [cbn [List.length] in Hfuel; lia|].
    cbn [compressLoop app].
    assert (E : (Z.of_nat (List.length before) + 1
                 <=? Z.of_nat (List.length (before ++ page :: after))) = true).
    { apply Z.leb_le. rewrite length_app. cbn [List.length]. lia. }
    rewrite E. unfold bind.
    pose proof (compressPage_progress (before ++ page :: after) quality
                  onProgress (Z.of_nat (List.length before) + 1)
                  (Z.of_nat (List.length (before ++ page :: after))) w) as Hprog.
    rewrite compressPage_eq in *.
    replace (Z.of_nat (List.length before) + 1 <? 1) with false in *
      by (symmetry; apply Z.ltb_ge; lia).
    replace (Z.to_nat (Z.of_nat (List.length before) + 1 - 1))
      with (List.length before) in * by lia.
    rewrite nth_error_app2, Nat.sub_diag in * by lia. cbn [nth_error] in *.
    destruct (render page (viewportOf page) (viewportOf page)) as [pixels|]
      eqn:Hrender.
    + destruct (embedJpg (toDataURL pixels "image/jpeg" quality)) as [img|]
        eqn:Hembed.
      * exfalso. apply (Hbad img). now exists pixels.
      * cbn [fst snd newPdfDoc] in *. cbn [compressedPages combine map countFrom].
        rewrite app_nil_r. repeat split. rewrite Hprog. now destruct onProgress.
    + cbn [fst snd newPdfDoc] in *. cbn [compressedPages combine map countFrom].
      rewrite app_nil_r. repeat split. rewrite Hprog. now destruct onProgress.
  - destruct fuel as [|fuel]; [cbn [List.length] in Hfuel; lia|].
    cbn [compressLoop app].
    assert (E : (Z.of_nat (List.length before) + 1
                 <=? Z.of_nat (List.length (before ++ p :: done ++ page :: after)))
                = true).
    { apply Z.leb_le. rewrite length_app. cbn [List.length]. lia. }
    rewrite E. unfold bind.
    rewrite (compressPage_run _ _ _ _ _ p img).
    + specialize (IH (before ++ [p]) fuel).
      rewrite <- app_assoc in IH. cbn [app] in IH.
      replace (Z.of_nat (List.length (before ++ [p])) + 1)
        with (Z.of_nat (List.length before) + 1 + 1) in IH
        by (rewrite length_app; cbn [List.length]; lia).
      match goal with
      | |- context [compressLoop fuel _ _ _ _ _ ?w'] =>
          destruct (IH w') as (Hfst & Hdoc & Hlog);
          [cbn [List.length] in Hfuel; lia|]
      end.
      split; [exact Hfst|]. split.
      * rewrite Hdoc. cbn [newPdfDoc compressedPages combine map fst snd].
        now rewrite <- app_assoc.
      * rewrite Hlog. cbn [log]. rewrite progressCalls_app,
          progressCalls_pageEvents.
        destruct onProgress; [|now rewrite !app_nil_r].
        cbn [List.length countFrom map]. now rewrite <- app_assoc.
    + lia.
    + replace (Z.to_nat (Z.of_nat (List.length before) + 1 - 1))
        with (List.length before) by lia.
      rewrite nth_error_app2 by lia. now rewrite Nat.sub_diag.
    + exact Hp.
Qed.

(** X13: when the pages before some page go through and that page does
    not render or embed, compressPdf throws pdf.js's or pdf-lib's error and
    returns no bytes; by then the callback has been called for each of the
    earlier pages and for the failing one, and [newPdfDoc] holds the
    earlier pages only. *)
Theorem compressPdf_fails_at_page (file : File Bytes) (quality : Q)
  (done : list SrcPage) (imgs : list Image) (page : SrcPage)
  (after : list SrcPage) :
  getDocument (arrayBuffer file) = Some (done ++ page :: after) ->
  getContext2d = true ->
  Forall2 (rendersTo quality) done imgs ->
  (forall img, ~ rendersTo quality page img) ->
  let run := compressPdf file quality true initial in
  fst run = Thrown LibraryError
  /\ progressCalls (log (snd run))
     = map (fun i => (i, Z.of_nat (List.length (done ++ page :: after))))
         (countFrom 1 (S (List.length done)))
  /\ newPdfDoc (snd run) = compressedPages done imgs.
Proof.
  intros Hdoc Hctx Hall Hbad run. subst run.
  unfold compressPdf. rewrite bind_awaitM, Hdoc, Hctx, bind_ret.
  unfold bind.
  destruct (compressLoop_fails quality true page after done imgs Hbad Hall []
              (Z.to_nat (Z.of_nat (List.length (done ++ page :: after))))
              initial) as (Hfst & Hpages & Hlog).
  { rewrite Nat2Z.id, length_app. cbn [List.length]. lia. }
  cbn [app List.length] in Hfst, Hpages, Hlog.
  change (Z.of_nat 0 + 1) with 1 in *.
  destruct (compressLoop _ (done ++ page :: after) quality true 1 _ initial)
    as [[[]|e] w1]; cbn [fst snd] in *; [discriminate|].
  split; [congruence|]. split; [exact Hlog | exact Hpages].
Qed.
End CompressFurther.

(** ** downloadPdf *)

Module DownloadFacts.
Import Download.

Section Dom.
Context {Bytes : Type}.

Lemma remove_fresh (e : nat) (l : list nat) :
  Forall (fun x => (x < e)%nat) l -> remove Nat.eq_dec e l = l.
Proof.
  intros Hl. apply notin_remove. intros Hin.
  rewrite Forall_forall in Hl. specialize (Hl e Hin). lia.
Qed.

Lemma filter_all {A} (f : A -> bool) (l : list A) :
  Forall (fun x => f x = true) l -> filter f l = l.
Proof.
  induction 1 as [|x l Hx _ IH]; simpl; [reflexivity|].
  now rewrite Hx, IH.
Qed.

(** What a call does to a page as a browser keeps it. *)
Lemma downloadPdf_run (data : Bytes) (filename : jsstring)
  (p : page Bytes) :
  consistent p ->
  exists p',
    downloadPdf data filename p = (Returned tt, p')
    /\ body p' = body p
    /\ objectURLs p' = objectURLs p
    /\ downloads p'
       = downloads p ++ [(filename, Some (mkBlob data "application/pdf"))]
    /\ consistent p'.
Proof.
  intros [Hbody Hurls]. destruct p as [b e us u ds].
  cbn [body elements objectURLs urls] in Hbody, Hurls.
  unfold downloadPdf, createObjectURL, createElement, appendChild, click,
    removeChild, revokeObjectURL, resolve.
  cbn [body elements objectURLs urls downloads element href download
       fst snd find].
  rewrite (remove_fresh e b Hbody), Nat.eqb_refl.
  assert (Hin : existsb (Nat.eqb e) (b ++ [e]) = true).
  { apply existsb_exists. exists e. split; [|apply Nat.eqb_refl].
    apply in_or_app. right. now left. }
  rewrite Hin. cbn [body elements objectURLs urls downloads filter fst snd negb].
  rewrite remove_app, (remove_fresh e b Hbody). cbn [remove].
  destruct (Nat.eq_dec e e) as [_|Hne]; [|congruence].
  rewrite app_nil_r.
  assert (Hkeep : filter (fun entry : nat * Blob Bytes =>
                            negb (Nat.eqb (fst entry) u)) us = us).
  { apply filter_all. eapply Forall_impl; [|exact Hurls].
    intros entry Hlt. cbn beta in *. apply negb_true_iff, Nat.eqb_neq. lia. }
  rewrite Hkeep, Nat.eqb_refl. cbn [negb]. eexists. split; [reflexivity|].
  unfold consistent. cbn [body elements objectURLs urls downloads].
  repeat split; try reflexivity.
  - eapply Forall_impl; [|exact Hbody]. intros x Hx. cbn beta in *. lia.
  - eapply Forall_impl; [|exact Hurls]. intros x Hx. cbn beta in *. lia.
Qed.

(** X14: on a page as a browser keeps it, downloadPdf does not throw; it
    starts exactly one download, of the given bytes as an
    application/pdf blob under the given file name, and leaves the page
    as it found it: the link it appended to the body is removed again and
    the object URL it created is revoked. *)
Theorem downloadPdf_leaves_page (data : Bytes) (filename : jsstring)
  (p : page Bytes) :
  consistent p ->
  exists p',
    downloadPdf data filename p = (Returned tt, p')
    /\ body p' = body p
    /\ objectURLs p' = objectURLs p
    /\ downloads p'
       = downloads p ++ [(filename, Some (mkBlob data "application/pdf"))]
    /\ consistent p'.
Proof.
  apply downloadPdf_run.
Qed.
End Dom.
End DownloadFacts.

(** ** geminiService *)

Module GeminiFacts.
Import Gemini.

Section Service.
Context {Data : Type} `{Service Data}.

Lemma orElse_not_empty (x : option jsstring) (fallback : jsstring) :
  fallback <> [] -> orElse x fallback <> [].
Proof.
  intros Hf. destruct x as [[|c s]|]; cbn; try assumption. discriminate.
Qed.

Lemma performOCR_not_empty (imageBase64 : Data) (result : jsstring) :
  fst (performOCR imageBase64) = Returned result -> result <> [].
Proof.
  unfold performOCR. destruct apiKey as [|k key]; [discriminate|].
  cbn [fst]. destruct (generateContent _) as [response|];
    cbn [await obind tryCatch]; [|discriminate].
  intros [= <-]. apply orElse_not_empty. discriminate.
Qed.

(** With a key, one request is sent: the OCR model, the image labelled
    image/jpeg, the data as given. *)
Lemma performOCR_request (imageBase64 : Data) :
  apiKey <> [] ->
  snd (performOCR imageBase64)
  = [mkRequest "gemini-2.5-flash" "image/jpeg" imageBase64 ocrPrompt].
Proof.
  unfold performOCR. destruct apiKey; [congruence | reflexivity].
Qed.

(** X15: performOCR never returns the empty string: it returns the
    response's text when there is some, and "No text could be extracted."
    otherwise.  It fails in two ways only: without a key, with the
    missing-key message and before any request is sent; and when the
    service call rejects, with "Failed to perform OCR. Please try
    again.". *)
Theorem performOCR_outcomes (imageBase64 : Data) :
  (forall result, fst (performOCR imageBase64) = Returned result ->
                  result <> []
                  /\ exists response,
                      generateContent
                        (mkRequest "gemini-2.5-flash" "image/jpeg" imageBase64
                           ocrPrompt) = Some response
                      /\ result = orElse (text response)
                                    (utf16 "No text could be extracted."))
  /\ (forall e, fst (performOCR imageBase64) = Thrown e ->
                (apiKey = []
                 /\ e = Error "API Key is missing. Please check your configuration."
                 /\ snd (performOCR imageBase64) = [])
                \/ (apiKey <> []
                    /\ e = Error "Failed to perform OCR. Please try again."
                    /\ generateContent
                         (mkRequest "gemini-2.5-flash" "image/jpeg" imageBase64
                            ocrPrompt) = None)).
Proof.
  unfold performOCR. destruct apiKey as [|k key] eqn:Hkey.
  - split; [discriminate|]. intros e [= <-]. left. repeat split.
  - cbn [fst snd].
    destruct (generateContent _) as [response|] eqn:Hcall; cbn [await obind tryCatch].
    + split; [|discriminate]. intros result [= <-].
      split; [apply orElse_not_empty; discriminate|].
      now exists response.
    + split; [discriminate|]. intros e [= <-]. right.
      repeat split. discriminate.
Qed.

Lemma firstInlineData_spec (parts : list Part) (image : jsstring) :
  firstInlineData parts = Some image <->
  image <> []
  /\ exists before after,
      parts = before ++ mkPart (Some (Some image)) :: after
      /\ Forall (fun part => forall c s,
                     inlineData part <> Some (Some (c :: s))) before.
Proof.
  induction parts as [|part parts IH]; simpl.
  - split; [discriminate|]. intros (_ & [|? ?] & ? & ? & _); discriminate.
  - destruct part as [[[[|c s]|]|]]; cbn [inlineData].
    + rewrite IH. split.
      * intros (Hne & before & after & -> & Hall). split; [exact Hne|].
        exists (mkPart (Some (Some [])) :: before), after.
        split; [reflexivity|]. constructor; [cbn; discriminate | exact Hall].
      * intros (Hne & [|p before] & after & Heq & Hall).
        -- injection Heq as <-. congruence.
        -- injection Heq as <- ->. inversion Hall; subst.
           split; [exact Hne|]. now exists before, after.
    + split.
      * intros [= <-]. split; [discriminate|].
        exists [], parts. split; [reflexivity | constructor].
      * intros (Hne & [|p before] & after & Heq & Hall).
        -- now injection Heq as <-.
        -- injection Heq as <- ->. inversion Hall as [|? ? Hp _]; subst.
           exfalso. now apply (Hp c s).
    + rewrite IH. split.
      * intros (Hne & before & after & -> & Hall). split; [exact Hne|].
        exists (mkPart (Some None) :: before), after.
        split; [reflexivity|]. constructor; [cbn; discriminate | exact Hall].
      * intros (Hne & [|p before] & after & Heq & Hall).
        -- discriminate.
        -- injection Heq as <- ->. inversion Hall; subst.
           split; [exact Hne|]. now exists before, after.
    + rewrite IH. split.
      * intros (Hne & before & after & -> & Hall). split; [exact Hne|].
        exists (mkPart None :: before), after.
        split; [reflexivity|]. constructor; [cbn; discriminate | exact Hall].
      * intros (Hne & [|p before] & after & Heq & Hall).
        -- discriminate.
        -- injection Heq as <- ->. inversion Hall; subst.
           split; [exact Hne|]. now exists before, after.
Qed.

(** The ways removeImageBackground settles. *)
Lemma removeImageBackground_cases (imageBase64 : Data) :
  (forall image,
      fst (removeImageBackground imageBase64) = Returned image <->
      apiKey <> []
      /\ exists response parts,
          generateContent
            (mkRequest "gemini-2.5-flash-image" "image/jpeg" imageBase64
               backgroundPrompt) = Some response
          /\ firstParts response = Some parts
          /\ firstInlineData parts = Some image)
  /\ (forall e, fst (removeImageBackground imageBase64) = Thrown e ->
                e <> Error "No image generated."
                /\ (apiKey = [] /\ e = Error "API Key is missing."
                    /\ snd (removeImageBackground imageBase64) = []
                    \/ apiKey <> [] /\ e = Error "Failed to remove background.")).
Proof.
  unfold removeImageBackground. destruct apiKey as [|k key] eqn:Hkey.
  - split.
    + intros image. split; [discriminate | intros [Hne _]; congruence].
    + intros e [= <-]. split; [discriminate|]. left. repeat split.
  - cbn [fst snd].
    destruct (generateContent _) as [response|] eqn:Hcall;
      cbn [await obind tryCatch].
    + destruct (firstParts response) as [parts|] eqn:Hparts.
      * destruct (firstInlineData parts) as [found|] eqn:Hfound;
          cbn [tryCatch].
        -- split.
           ++ intros image. split.
              ** intros [= <-]. split; [discriminate|].
                 now exists response, parts.
              ** intros (_ & r & ps & [= <-] & Hps & Hf). congruence.
           ++ discriminate.
        -- split.
           ++ intros image. split; [discriminate|].
              intros (_ & r & ps & [= <-] & Hps & Hf). congruence.
           ++ intros e [= <-]. split; [discriminate|]. right.
              split; [discriminate | reflexivity].
      * cbn [tryCatch]. split.
        -- intros image. split; [discriminate|].
           intros (_ & r & ps & [= <-] & Hps & _). congruence.
        -- intros e [= <-]. split; [discriminate|]. right.
           split; [discriminate | reflexivity].
    + split.
      * intros image. split; [discriminate|].
        intros (_ & r & ps & Hr & _). discriminate.
      * intros e [= <-]. split; [discriminate|]. right.
        split; [discriminate | reflexivity].
Qed.
Lemma firstParts_spec (response : Response) (parts : list Part) :
  firstParts response = Some parts <->
  exists candidate others,
    candidates response = Some (candidate :: others)
    /\ content candidate = Some (Some parts).
Proof.
  unfold firstParts. destruct (candidates response) as [[|c cs]|].
  - split; [discriminate | intros (? & ? & ? & _); discriminate].
  - destruct (content c) as [[ps|]|] eqn:E.
    + split.
      * intros [= <-]. now exists c, cs.
      * intros (c' & cs' & [= <- <-] & Hc). congruence.
    + split; [discriminate|]. intros (c' & cs' & [= <- <-] & Hc). congruence.
    + split; [discriminate|]. intros (c' & cs' & [= <- <-] & Hc). congruence.
  - split; [discriminate | intros (? & ? & ? & _); discriminate].
Qed.

(** X16: removeImageBackground returns the data of the first part of the
    first candidate that carries non-empty inline data, and nothing else:
    never the empty string, never a part of a later candidate.  The error
    "No image generated." never reaches the caller: when no such part is
    there the function fails with "Failed to remove background.", as it
    does when the service call rejects; without a key it fails with "API
    Key is missing." before any request is sent. *)
Theorem removeImageBackground_outcomes (imageBase64 : Data) :
  (forall image,
      fst (removeImageBackground imageBase64) = Returned image <->
      apiKey <> []
      /\ image <> []
      /\ exists response candidate others parts before after,
          generateContent
            (mkRequest "gemini-2.5-flash-image" "image/jpeg" imageBase64
               backgroundPrompt) = Some response
          /\ candidates response = Some (candidate :: others)
          /\ content candidate = Some (Some parts)
          /\ parts = before ++ mkPart (Some (Some image)) :: after
          /\ Forall (fun part => forall c s,
                         inlineData part <> Some (Some (c :: s))) before)
  /\ (forall e, fst (removeImageBackground imageBase64) = Thrown e ->
                e <> Error "No image generated."
                /\ (apiKey = [] /\ e = Error "API Key is missing."
                    /\ snd (removeImageBackground imageBase64) = []
                    \/ apiKey <> [] /\ e = Error "Failed to remove background.")).
Proof.
  destruct (removeImageBackground_cases imageBase64) as [Hret Hthrow].
  split; [|exact Hthrow].
  intros image. rewrite Hret. split.
  - intros (Hkey & response & parts & Hcall & Hparts & Hfound).
    apply firstParts_spec in Hparts.
    destruct Hparts as (candidate & others & Hcands & Hcontent).
    apply firstInlineData_spec in Hfound.
    destruct Hfound as (Hne & before & after & Hshape & Hbefore).
    split; [exact Hkey|]. split; [exact Hne|].
    now exists response, candidate, others, parts, before, after.
  - intros (Hkey & Hne & response & candidate & others & parts & before & after
            & Hcall & Hcands & Hcontent & Hshape & Hbefore).
    split; [exact Hkey|]. exists response, parts. split; [exact Hcall|]. split.
    + apply firstParts_spec. now exists candidate, others.
    + apply firstInlineData_spec. split; [exact Hne|]. now exists before, after.
Qed.
End Service.
End GeminiFacts.

(** ** split on a separator *)

(** The first piece of a split holds no separator, and the string is that
    piece, alone or followed by a separator. *)
Lemma split_first (sep : Z) (s : jsstring) :
  exists first rest,
    split sep s = first :: rest
    /\ ~ In sep first
    /\ ((rest = [] /\ s = first) \/ exists tail, s = first ++ sep :: tail).
Proof.
  induction s as [|c s (first & rest & Hsplit & Hfirst & Hshape)]; simpl.
  - exists [], []. split; [reflexivity|]. split; [intros []|]. now left.
  - destruct (Z.eqb_spec c sep) as [->|Hne].
    + exists [], (split sep s). split; [reflexivity|]. split; [intros []|].
      right. now exists s.
    + rewrite Hsplit. exists (c :: first), rest. split; [reflexivity|]. split.
      * intros [Heq|Hin]; [congruence | contradiction].
      * destruct Hshape as [[-> ->]|[tail ->]]; [now left | right].
        now exists tail.
Qed.

Lemma split_without_separator (sep : Z) (s : jsstring) :
  ~ In sep s -> split sep s = [s].
Proof.
  induction s as [|c s IH]; intros Hs; simpl.
  - reflexivity.
  - destruct (Z.eqb_spec c sep) as [->|Hne].
    + exfalso. apply Hs. now left.
    + rewrite IH; [reflexivity|]. intros Hin. apply Hs. now right.
Qed.

Lemma split_at_separator (sep : Z) (a b : jsstring) :
  ~ In sep a -> split sep (a ++ sep :: b) = a :: split sep b.
Proof.
  induction a as [|c a IH]; intros Ha; simpl.
  - now rewrite Z.eqb_refl.
  - destruct (Z.eqb_spec c sep) as [->|Hne].
    + exfalso. apply Ha. now left.
    + rewrite IH; [reflexivity|]. intros Hin. apply Ha. now right.
Qed.

(** ** App *)

Module AppFacts.
Import App.

Lemma getItem_removeItem (key : string) (s : Storage) :
  getItem key (removeItem key s) = None.
Proof.
  unfold getItem, removeItem. induction s as [|[k v] s IH]; simpl.
  - reflexivity.
  - destruct (String.eqb k key) eqn:E; simpl; [exact IH|]. now rewrite E.
Qed.

Section Session.
Context `{Json}.

(** X17: the user name that login derives from an email address is the
    part before the first '@' (the whole address when it has none): it
    holds no '@'; the address is kept as given and the user is logged
    in. *)
Theorem login_name (address : jsstring) (s : session) :
  ~ In at_sign (name (user (login address s)))
  /\ (name (user (login address s)) = address
      \/ exists rest,
          address = name (user (login address s)) ++ at_sign :: rest)
  /\ email (user (login address s)) = address
  /\ isLoggedIn (user (login address s)) = true.
Proof.
  unfold login. cbn [user name email isLoggedIn].
  destruct (split_first at_sign address)
    as (first & rest & -> & Hfirst & Hshape).
  split; [exact Hfirst|]. split; [|split; reflexivity].
  destruct Hshape as [[_ ->]|[tail ->]]; [now left | right]. now exists tail.
Qed.

(** X18: the session survives a restart when JSON.parse reads back what
    JSON.stringify writes: starting over the storage that login left
    gives the logged-in session back, and starting over the storage
    that logout left gives the logged-out one. *)
Theorem session_round_trip (address : jsstring) (s : session) :
  (forall u, parse (stringify u) = Some u) ->
  (forall u, stringify u <> []) ->
  start (localStorage (login address s)) = Returned (login address s)
  /\ start (localStorage (logout s)) = Returned (logout s)
  /\ start (localStorage (logout (login address s)))
     = Returned (logout (login address s)).
Proof.
  intros Hround Hnonempty.
  assert (Hout : forall t, start (localStorage (logout t)) = Returned (logout t)).
  { intros t. unfold start, logout. cbn [localStorage].
    now rewrite getItem_removeItem. }
  split; [|split; apply Hout].
  unfold start, login, setItem, getItem. cbn [localStorage find fst snd].
  rewrite String.eqb_refl. cbn [fst snd].
  set (u := mkUser _ address true).
  pose proof (Hnonempty u) as Hne. pose proof (Hround u) as Hparse.
  destruct (stringify u) as [|c stored] eqn:Hstored; [congruence|].
  rewrite Hparse. cbn [await obind]. now rewrite <- Hstored.
Qed.
End Session.

Section Screens.
Context {Bytes Page : Type} `{PdfLib Bytes Page}.

Lemma convertAndDownload_returned (pdfBytes : Bytes) (fileName : jsstring)
  (s : screen Bytes) :
  Download.consistent (page s) ->
  exists p,
    convertAndDownload (Returned pdfBytes) fileName s = mkScreen success p
    /\ Download.body p = Download.body (page s)
    /\ Download.objectURLs p = Download.objectURLs (page s)
    /\ Download.downloads p
       = Download.downloads (page s)
         ++ [(fileName, Some (Download.mkBlob pdfBytes "application/pdf"))]
    /\ Download.consistent p.
Proof.
  intros Hpage.
  destruct (DownloadFacts.downloadPdf_run pdfBytes fileName
              (page s) Hpage) as (p & Hrun & Hrest).
  exists p. unfold convertAndDownload. rewrite Hrun. now split.
Qed.

(** X19: handleSplit does nothing without a file or with an empty range.
    With both, over a source that loads and for a range whose numbers are
    safe integers: when the range selects no page the screen ends in
    [error] and nothing is downloaded; otherwise it ends in [success]
    after exactly one download, named split_<Date.now()>.pdf, of the
    pages that splitPdf returns. *)
Theorem handleSplit_outcome (file : File Bytes) (range : jsstring) (now : Z)
  (s : screen Bytes) (srcPdf : list Page) :
  Download.consistent (page s) ->
  load (arrayBuffer file) = Some srcPdf ->
  range <> [] ->
  safeRange range ->
  handleSplit None range now s = s
  /\ handleSplit (Some file) [] now s = s
  /\ (indices range (getPageCount srcPdf) = [] ->
      handleSplit (Some file) range now s = mkScreen error (page s))
  /\ (indices range (getPageCount srcPdf) <> [] ->
      exists pages p,
        pages <> []
        /\ splitPdf file range = Returned (serializeToBuffer pages)
        /\ handleSplit (Some file) range now s = mkScreen success p
        /\ Download.downloads p
           = Download.downloads (page s)
             ++ [(utf16 "split_" ++ numberToString now ++ utf16 ".pdf",
                  Some (Download.mkBlob (serializeToBuffer pages)
                          "application/pdf"))]
        /\ Download.body p = Download.body (page s)
        /\ Download.objectURLs p = Download.objectURLs (page s)).
Proof.
  intros Hpage Hload Hrange _.
  split; [reflexivity|]. split; [reflexivity|].
  destruct range as [|c range]; [congruence|]. cbn [handleSplit]. split.
  - intros Hnone. now rewrite (splitPdf_loaded _ _ _ Hload), Hnone.
  - intros Hsome.
    destruct (splitPdf_written file (c :: range) srcPdf Hload Hsome)
      as (pages & Hpages & Hret & _).
    destruct (convertAndDownload_returned (serializeToBuffer pages)
                (utf16 "split_" ++ numberToString now ++ utf16 ".pdf") s Hpage)
      as (p & Hrun & Hbody & Hurls & Hdown & _).
    exists pages, p. rewrite Hret. now repeat split.
Qed.

(** X20: handleMerge ends in [success] with one download, named
    merged_<Date.now()>.pdf, of the document of the inputs' pages in
    order, when every file loads and there is a page among them; it ends
    in [error] with nothing downloaded when a file does not load. *)
Theorem handleMerge_outcome (files : list (File Bytes)) (now : Z)
  (s : screen Bytes) :
  Download.consistent (page s) ->
  (forall pdfs,
      Forall2 (fun file pdf => load (arrayBuffer file) = Some pdf) files pdfs ->
      concat pdfs <> [] ->
      exists p,
        handleMerge files now s = mkScreen success p
        /\ Download.downloads p
           = Download.downloads (page s)
             ++ [(utf16 "merged_" ++ numberToString now ++ utf16 ".pdf",
                  Some (Download.mkBlob (serializeToBuffer (concat pdfs))
                          "application/pdf"))])
  /\ (Exists (fun file => load (arrayBuffer file) = None) files ->
      handleMerge files now s = mkScreen error (page s)).
Proof.
  intros Hpage. split.
  - intros pdfs Hloads Hne.
    destruct (convertAndDownload_returned (serializeToBuffer (concat pdfs))
                (utf16 "merged_" ++ numberToString now ++ utf16 ".pdf") s Hpage)
      as (p & Hrun & _ & _ & Hdown & _).
    exists p. unfold handleMerge, mergePdfs.
    rewrite (mergeLoop_concat _ _ _ Hloads). cbn [obind create app].
    rewrite (save_pages _ Hne). now split.
  - intros Hex. unfold handleMerge.
    destruct (mergePdfs files) as [bytes|e] eqn:Hrun; [|reflexivity].
    exfalso. destruct (mergePdfs_returns _ _ Hrun) as (pdfs & Hloads & _).
    clear - Hloads Hex. induction Hloads as [|file pdf fs pdfs Hl _ IH].
    + inversion Hex.
    + inversion Hex; subst; [congruence | now apply IH].
Qed.
End Screens.

Section Camera.
Context {Bytes Image : Type}.
Context `{ImageEmbedder Bytes Image} `{PdfLib Bytes (NewPage Z Image)}.
Context `{Fetch Bytes}.

Lemma filesOf_jpeg (urls : list jsstring) (imgs : list Image) :
  Forall2 (fun url img => exists blob,
               fetchBlob url = Some blob /\ embedJpg blob = Some img)
    urls imgs ->
  exists files,
    filesOf urls = Returned files
    /\ filter acceptedType files = files
    /\ Forall2 (fun file img => embedByType file = Some (Some img)) files imgs.
Proof.
  induction 1 as [|url img urls imgs (blob & Hfetch & Hembed) _
                    (files & Hfiles & Hkeep & Hall)].
  - exists []. repeat split. constructor.
  - exists (mkFile "image/jpeg" blob :: files).
    cbn [filesOf]. rewrite Hfetch, Hfiles. cbn [await obind].
    split; [reflexivity|]. split.
    + cbn. now rewrite Hkeep.
    + constructor; [|exact Hall]. unfold embedByType. cbn. now rewrite Hembed.
Qed.

(** X21: convertToPdf does nothing without a captured photo.  With
    photos that fetch and decode as JPEG, none is passed over, every
    capture being filed as image/jpeg: the camera is stopped, the screen
    ends in [success], and the one download, named scan_<Date.now()>.pdf,
    is a document with exactly one page per photo, in the order
    taken. *)
Theorem convertToPdf_pages (now : Z) (c : camera Bytes) (imgs : list Image) :
  Download.consistent (page (cameraScreen c)) ->
  capturedImages c <> [] ->
  Forall2 (fun url img => exists blob,
               fetchBlob url = Some blob /\ embedJpg blob = Some img)
    (capturedImages c) imgs ->
  (forall c0 : camera Bytes, capturedImages c0 = [] -> convertToPdf now c0 = c0)
  /\ exists p,
      convertToPdf now c
      = mkCamera (capturedImages c) false (mkScreen success p)
      /\ Download.downloads p
         = Download.downloads (page (cameraScreen c))
           ++ [(utf16 "scan_" ++ numberToString now ++ utf16 ".pdf",
                Some (Download.mkBlob (save (map imagePage imgs))
                        "application/pdf"))]
      /\ List.length (map imagePage imgs) = List.length (capturedImages c).
Proof.
  intros Hpage Hne Hall. split.
  - intros c0 Hnone. unfold convertToPdf. now rewrite Hnone.
  - destruct (filesOf_jpeg _ _ Hall) as (files & Hfiles & Hkeep & Hembed).
    destruct (convertAndDownload_returned (save (map imagePage imgs))
                (utf16 "scan_" ++ numberToString now ++ utf16 ".pdf")
                (cameraScreen c) Hpage)
      as (p & Hrun & _ & _ & Hdown & _).
    exists p. unfold convertToPdf.
    destruct (capturedImages c) as [|url urls] eqn:Hurls; [congruence|].
    rewrite Hfiles. cbn [obind]. unfold imagesToPdf.
    rewrite (imagesLoop_pages files imgs create)
      by (rewrite Hkeep; exact Hembed).
    cbn [obind create app]. rewrite Hrun.
    split; [reflexivity|]. split; [exact Hdown|].
    rewrite length_map. symmetry. exact (Forall2_length Hall).
Qed.
End Camera.

Section ServiceScreens.
Context {Bytes : Type} `{FileReader Bytes}.
Context `{Gemini.Service (option jsstring)}.

(** X22: handleOcr never shows [error]: with a file it ends in [success]
    with a text that is not empty, or it stays in [processing] with the
    text it had; this is where it stays when the file does not read or
    when performOCR throws, for a missing key as for a failing
    service. *)
Theorem handleOcr_status (file : File Bytes) (s : scanner) :
  scanStatus (handleOcr (Some file) s) <> error
  /\ (scanStatus (handleOcr (Some file) s) = success ->
      result (handleOcr (Some file) s) <> [])
  /\ (readAsDataURL file = None ->
      handleOcr (Some file) s = mkScanner (result s) processing)
  /\ (forall dataUrl e,
        readAsDataURL file = Some dataUrl ->
        fst (Gemini.performOCR (base64Of dataUrl)) = Thrown e ->
        handleOcr (Some file) s = mkScanner (result s) processing)
  /\ handleOcr None s = s.
Proof.
  unfold handleOcr.
  destruct (readAsDataURL file) as [dataUrl|].
  - destruct (fst (Gemini.performOCR (base64Of dataUrl))) as [text|e] eqn:Hocr;
      cbn [scanStatus result].
    + split; [discriminate|]. split.
      * intros _. exact (GeminiFacts.performOCR_not_empty _ _ Hocr).
      * split; [discriminate|]. split; [|reflexivity].
        intros d e [= <-]. congruence.
    + split; [discriminate|]. split; [discriminate|].
      split; [discriminate|]. split; reflexivity.
  - cbn [scanStatus result]. split; [discriminate|]. split; [discriminate|].
    split; [reflexivity|]. split; [discriminate | reflexivity].
Qed.

(** X23: what the screens send to the service: for a data URL made of a
    header, a comma and a payload, neither holding a comma, the one
    request of performOCR carries exactly the payload; a string without
    a comma sends [undefined]. *)
Theorem ocr_request_payload (header payload : jsstring) :
  Gemini.apiKey <> [] ->
  ~ In comma header ->
  ~ In comma payload ->
  base64Of (header ++ comma :: payload) = Some payload
  /\ map Gemini.data
       (snd (Gemini.performOCR (base64Of (header ++ comma :: payload))))
     = [Some payload]
  /\ base64Of header = None.
Proof.
  intros Hkey Hheader Hpayload.
  assert (Hbase : base64Of (header ++ comma :: payload) = Some payload).
  { unfold base64Of. rewrite (split_at_separator _ _ _ Hheader).
    now rewrite (split_without_separator _ _ Hpayload). }
  split; [exact Hbase|]. split.
  - rewrite Hbase. now rewrite (GeminiFacts.performOCR_request _ Hkey).
  - unfold base64Of. now rewrite (split_without_separator _ _ Hheader).
Qed.

(** X24: handleRemoveBg never shows [error] either; when it ends in
    [success] the image shown is the data URL
    "data:image/jpeg;base64," followed by what the service returned,
    which is not empty; it stays in [processing] when
    removeImageBackground throws. *)
Theorem handleRemoveBg_status (file : File Bytes) (s : remover) :
  removeStatus (handleRemoveBg (Some file) s) <> error
  /\ (removeStatus (handleRemoveBg (Some file) s) = success ->
      exists dataUrl image,
        readAsDataURL file = Some dataUrl
        /\ fst (Gemini.removeImageBackground (base64Of dataUrl))
           = Returned image
        /\ image <> []
        /\ resultImage (handleRemoveBg (Some file) s)
           = Some (utf16 "data:image/jpeg;base64," ++ image))
  /\ (forall dataUrl e,
        readAsDataURL file = Some dataUrl ->
        fst (Gemini.removeImageBackground (base64Of dataUrl)) = Thrown e ->
        handleRemoveBg (Some file) s = mkRemover (resultImage s) processing)
  /\ handleRemoveBg None s = s.
Proof.
  unfold handleRemoveBg.
  destruct (readAsDataURL file) as [dataUrl|].
  - destruct (fst (Gemini.removeImageBackground (base64Of dataUrl)))
      as [image|e] eqn:Hrun; cbn [removeStatus resultImage].
    + split; [discriminate|]. split.
      * intros _. exists dataUrl, image. repeat split; try assumption.
        pose proof (proj1 (GeminiFacts.removeImageBackground_cases
                             (base64Of dataUrl))) as Hcases.
        apply Hcases in Hrun.
        destruct Hrun as (_ & response & parts & _ & _ & Hfound).
        now apply GeminiFacts.firstInlineData_spec in Hfound.
      * split; [|reflexivity]. intros d e [= <-]. congruence.
    + split; [discriminate|]. split; [discriminate|]. split; reflexivity.
  - cbn [removeStatus resultImage]. split; [discriminate|].
    split; [discriminate|]. split; [discriminate | reflexivity].
Qed.
End ServiceScreens.
End AppFacts.

(** * Worked examples *)

(** C2 as written fails: ["1-3,5"] over 10 pages does not resolve to
    {0,1,2,3,4}, index 3 is not selected. *)
Lemma range_1_3_5_has_no_index_3 :
  ~ (forall i, In i (indices (utf16 "1-3,5") 10) <-> In i [0; 1; 2; 3; 4]).
Proof.
  intros Hset. assert (Hin : In 3 (indices (utf16 "1-3,5") 10)).
  { apply Hset. simpl. tauto. }
  vm_compute in Hin. intuition discriminate.
Qed.

Lemma range_examples_witness :
  indices (utf16 "1-3,5") 10 = [0; 1; 2; 4]
  /\ indices (utf16 "5-2") 10 = []
  /\ splitPdf tenPages (utf16 "5-2") = Thrown (Error "Invalid page range")
  /\ indices (utf16 "1, abc, 3") 10 = [0; 2]
  /\ exists p1 p3,
       pageAt tenLabels 0 = Some p1 /\ pageAt tenLabels 2 = Some p3
       /\ splitPdf tenPages (utf16 "1, abc, 3") = Returned (save [p1; p3]).
Proof.
  apply (range_examples tenPages tenLabels); reflexivity.
Defined.



(** Merging a 3-page A and a 2-page B: five pages, A's then B's. *)
Lemma mergePdfs_concat_witness :
  mergePdfs [pdfOf ["A1"; "A2"; "A3"]%string; pdfOf ["B1"; "B2"]%string]
  = Returned (pdfData ["A1"; "A2"; "A3"; "B1"; "B2"]%string)
  /\ getPageCount ["A1"; "A2"; "A3"; "B1"; "B2"]%string = 3 + (2 + 0)
  /\ pagesOf
       (mergePdfs [pdfOf ["A1"; "A2"; "A3"]%string; pdfOf ["B1"; "B2"]%string])
     = Some ["A1"; "A2"; "A3"; "B1"; "B2"]%string.
Proof.
  assert (Hall : Forall2 (fun file pdf => load (arrayBuffer file) = Some pdf)
                   [pdfOf ["A1"; "A2"; "A3"]%string; pdfOf ["B1"; "B2"]%string]
                   [["A1"; "A2"; "A3"]%string; ["B1"; "B2"]%string])
    by repeat constructor.
  assert (Hne : concat [["A1"; "A2"; "A3"]%string; ["B1"; "B2"]%string] <> [])
    by discriminate.
  assert (Hround : forall pages : list string,
             load (serializeToBuffer pages) = Some pages) by reflexivity.
  destruct (mergePdfs_concat _ _ Hall) as (Hrun & Hcount & Hpages & _).
  split; [exact (Hrun Hne)|]. split; [exact Hcount|].
  exact (proj1 (Hpages Hround Hne)).
Defined.


Lemma threePages_render :
  Forall2 (rendersTo (3 # 5)) ["a"; "b"; "c"]%string
    [(918, 1188); (918, 1188); (918, 1188)].
Proof.
  repeat (constructor; [eexists; split; reflexivity|]). constructor.
Defined.

Lemma progress_sequence_witness :
  (exists bytes, fst (compressPdf threePages (3 # 5) true initial) = Returned bytes)
  /\ log (snd (compressPdf threePages (3 # 5) true initial))
     = loopEvents true (3 # 5) 3 1 ["a"; "b"; "c"]%string
  /\ reports 0 (log (snd (compressPdf threePages (3 # 5) true initial)))
     = [(1, 3, 0); (2, 3, 1); (3, 3, 2)].
Proof.
  apply (progress_sequence threePages (3 # 5) ["a"; "b"; "c"]%string
           [(918, 1188); (918, 1188); (918, 1188)]);
    [reflexivity | reflexivity | exact threePages_render].
Defined.

(** C7 as written fails: on a one-page document the callback is called
    with (1,1) when no page is done yet. *)
Lemma progress_called_before_page :
  ~ calledAfterPage
      (log (snd (compressPdf (pdfOf ["a"%string]) (3 # 5) true initial))).
Proof.
  unfold calledAfterPage.
  assert (Hreports :
            reports 0 (log (snd (compressPdf (pdfOf ["a"%string]) (3 # 5) true
                                   initial)))
            = [(1, 1, 0)]) by reflexivity.
  rewrite Hreports. intros Hall. inversion Hall as [|r l Hr Hl]; subst.
  simpl in Hr. lia.
Qed.

Lemma compressPdf_scale_quality_pages_witness :
  let run := compressPdf threePages (3 # 5) false initial in
  viewportScales (log (snd run)) = [(1, 3 # 2); (2, 3 # 2); (3, 3 # 2)]
  /\ encoderCalls (log (snd run))
     = [("image/jpeg"%string, 3 # 5); ("image/jpeg"%string, 3 # 5);
        ("image/jpeg"%string, 3 # 5)]
  /\ List.length (newPdfDoc (snd run)) = 3%nat
  /\ map mediaBox (newPdfDoc (snd run))
     = [getViewport "a"%string (3 # 2); getViewport "b"%string (3 # 2);
        getViewport "c"%string (3 # 2)].
Proof.
  assert (Hload : getDocument (arrayBuffer threePages)
                  = Some ["a"; "b"; "c"]%string) by reflexivity.
  assert (Hctx : getContext2d = true) by reflexivity.
  assert (Hne : ["a"; "b"; "c"]%string <> []) by discriminate.
  destruct (compressPdf_scale_quality_pages threePages (3 # 5) false
              ["a"; "b"; "c"]%string _ Hload Hctx threePages_render Hne)
    as (_ & Hdoc & Hlen & Hscale & Hquality & _ & Hboxes & _).
  cbv zeta. rewrite Hdoc. repeat split; assumption.
Defined.

(** ["12ab"] parses as ["12"] does, to 12. *)
Lemma trailing_characters_accepted_witness :
  parseInt (utf16 "12ab") = parseInt (utf16 "12")
  /\ parseInt (utf16 "12") = Some 12.
Proof.
  destruct trailing_characters_accepted as [Hprefix _].
  apply (Hprefix 49 [50] 97 [98]).
  - lia.
  - repeat constructor; lia.
  - lia.
Defined.

#[local] Existing Instance storedEmbedder.
#[local] Existing Instance storedPdfLib.
#[local] Existing Instance storedFetch.
#[local] Existing Instance scanPdfJs.
#[local] Existing Instance scanDom.
#[local] Existing Instance scanEmbedder.
#[local] Existing Instance scanWriter.
#[local] Existing Instance sampleJson.
#[local] Existing Instance sampleService.
#[local] Existing Instance sheetsPdfJs.
#[local] Existing Instance sheetsDom.
#[local] Existing Instance sheetsEmbedder.
#[local] Existing Instance sheetsPdfLib.

(** ["3,1-2,3"] and ["1-2,3"] are made of the same terms. *)
Lemma indices_term_order_irrelevant_witness :
  indices (utf16 "3,1-2,3") 10 = indices (utf16 "1-2,3") 10
  /\ indices (utf16 "1-2,3") 10 = [0; 1; 2].
Proof.
  split; [|reflexivity].
  apply (indices_term_order_irrelevant (utf16 "3,1-2,3") (utf16 "1-2,3") 10).
  intros part. simpl. tauto.
Defined.

Lemma splitPdf_no_digit_rejected_witness :
  splitPdf tenPages (utf16 "a-b, x") = Thrown (Error "Invalid page range").
Proof.
  apply (splitPdf_no_digit_rejected tenPages (utf16 "a-b, x") tenLabels).
  - reflexivity.
  - repeat (constructor; [simpl; lia|]). constructor.
Defined.

(** ["3,1-2"] selects the three pages of a three-page document. *)
Lemma splitPdf_whole_document_witness :
  indices (utf16 "3,1-2") 3 = [0; 1; 2]
  /\ splitPdf threePages (utf16 "3,1-2")
     = Returned (pdfData ["a"; "b"; "c"]%string).
Proof.
  assert (Hload : load (arrayBuffer threePages) = Some ["a"; "b"; "c"]%string)
    by reflexivity.
  assert (Hne : ["a"; "b"; "c"]%string <> []) by discriminate.
  assert (Hall : forall n, 1 <= n <= getPageCount ["a"; "b"; "c"]%string ->
                   exists part, In part (split comma (utf16 "3,1-2"))
                                /\ selects (getPageCount ["a"; "b"; "c"]%string)
                                     part n).
  { intros n Hn. change (getPageCount ["a"; "b"; "c"]%string) with 3 in *.
    assert (Hcases : n = 3 \/ 1 <= n <= 2) by lia.
    destruct Hcases as [-> | Hrange].
    - exists (utf16 "3"). split; [simpl; tauto|].
      split; [lia | reflexivity].
    - exists (utf16 "1-2"). split; [simpl; tauto|].
      split; [lia|]. exists 1, 2, []. split; [reflexivity | exact Hrange]. }
  assert (Hsafe : safeRange (utf16 "3,1-2")) by reflexivity.
  exact (splitPdf_whole_document threePages (utf16 "3,1-2") _
           Hload Hsafe Hne Hall).
Defined.

Lemma splitPdf_page_count_witness :
  exists pages,
    pdfData ["p2"; "p3"; "p4"]%string = save pages
    /\ (1 <= List.length pages <= List.length tenLabels)%nat
    /\ Forall (fun page => In page tenLabels) pages.
Proof.
  apply (splitPdf_page_count tenPages (utf16 "2-4") tenLabels); reflexivity.
Defined.

Lemma splitPdf_empty_source_witness :
  splitPdf (pdfOf []) (utf16 "1") = Thrown (Error "Invalid page range").
Proof.
  apply (splitPdf_empty_source (pdfOf []) (utf16 "1")); reflexivity.
Defined.

(** (A + B) + C and A + B + C hold the same pages. *)
Lemma mergePdfs_associative_witness :
  pagesOf (mergePdfs [pdfOf ["A1"; "A2"; "B1"]%string; pdfOf ["C1"]%string])
  = Some ["A1"; "A2"; "B1"; "C1"]%string
  /\ pagesOf (mergePdfs [pdfOf ["A1"; "A2"]%string; pdfOf ["B1"]%string;
                         pdfOf ["C1"]%string])
     = Some ["A1"; "A2"; "B1"; "C1"]%string.
Proof.
  assert (Hround : forall pages : list string,
             load (serializeToBuffer pages) = Some pages) by reflexivity.
  assert (Hall1 : Forall2 (fun file pdf => load (arrayBuffer file) = Some pdf)
                    [pdfOf ["A1"; "A2"]%string; pdfOf ["B1"]%string]
                    [["A1"; "A2"]%string; ["B1"]%string])
    by repeat constructor.
  assert (Hall2 : Forall2 (fun file pdf => load (arrayBuffer file) = Some pdf)
                    [pdfOf ["C1"]%string] [["C1"]%string])
    by repeat constructor.
  assert (Hne1 : concat [["A1"; "A2"]%string; ["B1"]%string] <> [])
    by discriminate.
  assert (Hne2 : concat [["C1"]%string] <> []) by discriminate.
  assert (Hrun1 : mergePdfs [pdfOf ["A1"; "A2"]%string; pdfOf ["B1"]%string]
                  = Returned (pdfData ["A1"; "A2"; "B1"]%string))
    by reflexivity.
  assert (Hrun2 : mergePdfs [pdfOf ["C1"]%string]
                  = Returned (pdfData ["C1"]%string)) by reflexivity.
  exact (mergePdfs_associative _ _ _ _ _ _ "application/pdf" "application/pdf"
           Hround Hall1 Hall2 Hne1 Hne2 Hrun1 Hrun2).
Defined.

(** Pages 1-4 and pages 5-10 of the ten-page sample, merged again. *)
Lemma split_then_merge_witness :
  pagesOf (mergePdfs [pdfOf ["p1"; "p2"; "p3"; "p4"]%string;
                      pdfOf ["p5"; "p6"; "p7"; "p8"; "p9"; "p10"]%string])
  = Some tenLabels.
Proof.
  assert (Hround : forall pages : list string,
             load (serializeToBuffer pages) = Some pages) by reflexivity.
  assert (Hload : load (arrayBuffer tenPages) = Some tenLabels) by reflexivity.
  assert (Hall : indices (utf16 "1-4") (getPageCount tenLabels)
                 ++ indices (utf16 "5-10") (getPageCount tenLabels)
                 = getPageIndices tenLabels) by reflexivity.
  assert (Hfirst : splitPdf tenPages (utf16 "1-4")
                   = Returned (pdfData ["p1"; "p2"; "p3"; "p4"]%string))
    by reflexivity.
  assert (Hsecond : splitPdf tenPages (utf16 "5-10")
                    = Returned
                        (pdfData ["p5"; "p6"; "p7"; "p8"; "p9"; "p10"]%string))
    by reflexivity.
  exact (split_then_merge tenPages _ _ tenLabels _ _
           "application/pdf" "application/pdf"
           Hround Hload Hall Hfirst Hsecond).
Defined.

Lemma images_then_merge_witness :
  pagesOf
    (mergePdfs [mkFile "application/pdf" (storedPdf [imagePage (640, 480)]);
                mkFile "application/pdf" (storedPdf [imagePage (800, 600)])])
  = Some [imagePage (640, 480); imagePage (800, 600)]
  /\ pagesOf
       (imagesToPdf [mkFile "image/jpeg" (storedJpeg 640 480);
                     mkFile "image/jpg" (storedJpeg 800 600)])
     = Some [imagePage (640, 480); imagePage (800, 600)].
Proof.
  assert (Hround : forall pages : list (NewPage Z (Z * Z)),
             load (serializeToBuffer pages) = Some pages) by reflexivity.
  assert (Hall1 : Forall2
                    (fun image pdfImage =>
                       embedByType image = Some (Some pdfImage))
                    (filter acceptedType
                       [mkFile "image/jpeg" (storedJpeg 640 480)])
                    [(640, 480)]) by repeat constructor.
  assert (Hall2 : Forall2
                    (fun image pdfImage =>
                       embedByType image = Some (Some pdfImage))
                    (filter acceptedType
                       [mkFile "image/jpg" (storedJpeg 800 600)])
                    [(800, 600)]) by repeat constructor.
  assert (Hne1 : [(640, 480)] <> @nil (Z * Z)) by discriminate.
  assert (Hne2 : [(800, 600)] <> @nil (Z * Z)) by discriminate.
  assert (Hrun1 : imagesToPdf [mkFile "image/jpeg" (storedJpeg 640 480)]
                  = Returned (storedPdf [imagePage (640, 480)]))
    by reflexivity.
  assert (Hrun2 : imagesToPdf [mkFile "image/jpg" (storedJpeg 800 600)]
                  = Returned (storedPdf [imagePage (800, 600)]))
    by reflexivity.
  exact (images_then_merge _ _ _ _ _ _ "application/pdf" "application/pdf"
           Hround Hall1 Hall2 Hne1 Hne2 Hrun1 Hrun2).
Defined.

(** The third page of a four-page scan does not render: three progress
    calls, two pages built, no bytes. *)
Lemma compressPdf_fails_at_page_witness :
  let run :=
    compressPdf (mkFile "application/pdf" (scanPdf [true; true; false; true]))
      (3 # 5) true initial in
  fst run = Thrown LibraryError
  /\ progressCalls (log (snd run)) = [(1, 4); (2, 4); (3, 4)]
  /\ List.length (newPdfDoc (snd run)) = 2%nat.
Proof.
  assert (Hdone : Forall2 (rendersTo (3 # 5)) [true; true]
                    [(918, 1188); (918, 1188)]).
  { repeat (constructor; [eexists; split; reflexivity|]). constructor. }
  assert (Hfails : forall img : Z * Z, ~ rendersTo (3 # 5) false img).
  { intros img (pixels & Hrender & _). discriminate Hrender. }
  assert (Hload : getDocument
                    (arrayBuffer
                       (mkFile "application/pdf"
                          (scanPdf [true; true; false; true])))
                  = Some ([true; true] ++ false :: [true])) by reflexivity.
  assert (Hctx : @getContext2d scan _ _ = true) by reflexivity.
  destruct (compressPdf_fails_at_page _ (3 # 5) [true; true] _ false [true]
              Hload Hctx Hdone Hfails) as (Hthrown & Hcalls & Hdoc).
  cbv zeta. rewrite Hthrown, Hcalls, Hdoc. repeat split.
Defined.

Lemma downloadPdf_leaves_page_witness :
  exists p',
    Download.downloadPdf (pdfData ["a"]%string) (utf16 "a.pdf")
      (Download.mkPage [0; 2]%nat 3
         [(1%nat, Download.mkBlob junk "text/plain")] 2 [])
    = (Returned tt, p')
    /\ Download.body p' = [0; 2]%nat
    /\ Download.objectURLs p' = [(1%nat, Download.mkBlob junk "text/plain")]
    /\ Download.downloads p'
       = [] ++ [(utf16 "a.pdf",
                 Some (Download.mkBlob (pdfData ["a"]%string)
                         "application/pdf"))]
    /\ Download.consistent p'.
Proof.
  apply (DownloadFacts.downloadPdf_leaves_page (pdfData ["a"]%string)
           (utf16 "a.pdf")
           (Download.mkPage [0; 2]%nat 3
              [(1%nat, Download.mkBlob junk "text/plain")] 2 [])).
  split; repeat constructor.
Defined.

Lemma sampleJson_reads_back (u : App.UserProfile) :
  App.parse (App.stringify u) = Some u.
Proof.
  destruct u as [name email flag]. cbn.
  rewrite Nat2Z.id, firstn_app, skipn_app, Nat.sub_diag, firstn_all, skipn_all.
  cbn. rewrite app_nil_r. now destruct flag.
Qed.

Lemma session_round_trip_witness :
  App.start (App.localStorage
               (App.login (utf16 "ada@example.org")
                  (App.mkSession App.noUser [])))
  = Returned (App.mkSession
                (App.mkUser (utf16 "ada") (utf16 "ada@example.org") true)
                [("user"%string,
                  App.stringify
                    (App.mkUser (utf16 "ada") (utf16 "ada@example.org") true))]).
Proof.
  destruct (AppFacts.session_round_trip (utf16 "ada@example.org")
              (App.mkSession App.noUser []) sampleJson_reads_back)
    as (Hlogin & _).
  - intros u. discriminate.
  - exact Hlogin.
Defined.

Lemma handleSplit_outcome_witness :
  exists p,
    App.handleSplit (Some tenPages) (utf16 "1-2,10") 1700000000000
      (App.mkScreen App.idle blankPage)
    = App.mkScreen App.success p
    /\ Download.downloads p
       = [(utf16 "split_1700000000000.pdf",
           Some (Download.mkBlob (pdfData ["p1"; "p2"; "p10"]%string)
                   "application/pdf"))].
Proof.
  assert (Hpage : Download.consistent
                    (App.page (App.mkScreen App.idle (@blankPage sample))))
    by (split; constructor).
  assert (Hload : load (arrayBuffer tenPages) = Some tenLabels) by reflexivity.
  assert (Hrange : utf16 "1-2,10" <> []) by discriminate.
  assert (Hsafe : safeRange (utf16 "1-2,10")) by reflexivity.
  destruct (AppFacts.handleSplit_outcome tenPages (utf16 "1-2,10")
              1700000000000 (App.mkScreen App.idle blankPage) tenLabels
              Hpage Hload Hrange Hsafe) as (_ & _ & _ & Hsome).
  destruct Hsome as (pages & p & _ & Hret & Hrun & Hdown & _); [discriminate|].
  exists p. split; [exact Hrun|]. rewrite Hdown.
  injection Hret as <-. reflexivity.
Defined.

Lemma handleMerge_outcome_witness :
  (exists p,
      App.handleMerge [pdfOf ["A1"; "A2"]%string; pdfOf ["B1"]%string]
        1700000000000 (App.mkScreen App.idle blankPage)
      = App.mkScreen App.success p
      /\ Download.downloads p
         = [(utf16 "merged_1700000000000.pdf",
             Some (Download.mkBlob (pdfData ["A1"; "A2"; "B1"]%string)
                     "application/pdf"))])
  /\ App.handleMerge [pdfOf ["A1"; "A2"]%string; mkFile "application/pdf" junk]
       1700000000000 (App.mkScreen App.idle blankPage)
     = App.mkScreen App.error blankPage.
Proof.
  assert (Hpage : Download.consistent
                    (App.page (App.mkScreen App.idle (@blankPage sample))))
    by (split; constructor).
  split.
  - destruct (AppFacts.handleMerge_outcome
                [pdfOf ["A1"; "A2"]%string; pdfOf ["B1"]%string]
                1700000000000 (App.mkScreen App.idle blankPage) Hpage)
      as (Hall & _).
    apply (Hall [["A1"; "A2"]%string; ["B1"]%string]);
      [repeat constructor | discriminate].
  - destruct (AppFacts.handleMerge_outcome
                [pdfOf ["A1"; "A2"]%string; mkFile "application/pdf" junk]
                1700000000000 (App.mkScreen App.idle blankPage) Hpage)
      as (_ & Hsome).
    apply Hsome. right. left. reflexivity.
Defined.

(** Two photos taken: a document of two pages is downloaded and the
    camera is off. *)
Lemma convertToPdf_pages_witness :
  exists p,
    App.convertToPdf 1700000000000
      (App.mkCamera [utf16 "data:,one"; utf16 "data:,two"] true
         (App.mkScreen App.idle blankPage))
    = App.mkCamera [utf16 "data:,one"; utf16 "data:,two"] false
        (App.mkScreen App.success p)
    /\ Download.downloads p
       = [(utf16 "scan_1700000000000.pdf",
           Some (Download.mkBlob
                   (storedPdf [imagePage (640, 480); imagePage (640, 480)])
                   "application/pdf"))].
Proof.
  assert (Hpage : Download.consistent
                    (App.page (App.mkScreen App.idle (@blankPage stored))))
    by (split; constructor).
  assert (Hall : Forall2 (fun url img => exists blob,
                              App.fetchBlob url = Some blob
                              /\ embedJpg blob = Some img)
                   [utf16 "data:,one"; utf16 "data:,two"]
                   [(640, 480); (640, 480)]).
  { repeat (constructor; [eexists; split; reflexivity|]). constructor. }
  destruct (AppFacts.convertToPdf_pages 1700000000000
              (App.mkCamera [utf16 "data:,one"; utf16 "data:,two"] true
                 (App.mkScreen App.idle blankPage))
              [(640, 480); (640, 480)] Hpage)
    as (_ & p & Hrun & Hdown & _).
  - discriminate.
  - exact Hall.
  - exists p. split; [exact Hrun | exact Hdown].
Defined.

Lemma ocr_request_payload_witness :
  App.base64Of (utf16 "data:image/jpeg;base64,/9j/4AAQ") = Some (utf16 "/9j/4AAQ")
  /\ map Gemini.data
       (snd (Gemini.performOCR
               (App.base64Of (utf16 "data:image/jpeg;base64,/9j/4AAQ"))))
     = [Some (utf16 "/9j/4AAQ")]
  /\ App.base64Of (utf16 "data:image/jpeg;base64") = None.
Proof.
  apply (AppFacts.ocr_request_payload (utf16 "data:image/jpeg;base64")
           (utf16 "/9j/4AAQ")).
  - discriminate.
  - simpl. unfold comma. intuition discriminate.
  - simpl. unfold comma. intuition discriminate.
Defined.

(** C5 as written fails: two inputs without pages hold 0 pages between
    them, and the merged document holds 1. *)
Lemma merged_page_count_is_not_the_sum :
  ~ (option_map getPageCount (pagesOf (mergePdfs [pdfOf []; pdfOf []]))
     = Some (getPageCount (@nil string) + getPageCount (@nil string))).
Proof.
  assert (Hcount : option_map getPageCount
                     (pagesOf (mergePdfs [pdfOf []; pdfOf []]))
                   = Some 1) by reflexivity.
  rewrite Hcount. discriminate.
Qed.

(** C10 as written fails: what mergePdfs returns for no file is read back
    as a document of one page, not of none. *)
Lemma mergePdfs_of_no_file_has_a_page :
  pagesOf (mergePdfs (@nil (File sample))) = Some ["blank"%string]
  /\ ~ (pagesOf (mergePdfs (@nil (File sample))) = Some (@nil string)).
Proof.
  split; [reflexivity | discriminate].
Qed.


(** C8 as written fails: an A4 sheet gives a page of 892.92 x 1262.835
    points, while the raster drawn on it has 892 x 1262 pixels; and a
    document without pages gives a document of one page. *)
Lemma compressed_page_is_not_sized_to_raster :
  ~ sizedToRaster (newPdfDoc (snd (compressPdf a4Sheet (3 # 5) false initial)))
  /\ option_map (@List.length _)
       (pagesOf (fst (compressPdf (mkFile "application/pdf" (sheetsPdf []))
                        (3 # 5) false initial)))
     = Some 1%nat
  /\ ~ (option_map (@List.length _)
          (pagesOf (fst (compressPdf (mkFile "application/pdf" (sheetsPdf []))
                           (3 # 5) false initial)))
        = Some 0%nat).
Proof.
  split; [|split; [reflexivity|]].
  - assert (Hdoc : newPdfDoc (snd (compressPdf a4Sheet (3 # 5) false initial))
                   = [mkPage (Qmult (59528 # 100) (3 # 2),
                              Qmult (84189 # 100) (3 # 2))
                        [mkDrawing (892, 1262) 0%Q 0%Q
                           (Qmult (59528 # 100) (3 # 2))
                           (Qmult (84189 # 100) (3 # 2))]])
      by reflexivity.
    rewrite Hdoc. intros Hsized.
    inversion Hsized as [|page doc Hpage _]; subst.
    inversion Hpage as [|d ds [Hwidth _] _]; subst.
    vm_compute in Hwidth. discriminate Hwidth.
  - discriminate.
Qed.
